(** * auto-annoy: authorization and state-consistency core of [main.py]

    A shallow embedding of the per-guild configuration store of the bot:
    persistence with bounded retry, the guild-state accessor with its
    owner self-healing, the admin/target membership queries, the
    self-demotion confirmation window and the command handlers.

    The Python module keeps two process-wide dictionaries ([state] and
    [pending_confirmations]) and talks to the file system, the clock and
    the chat platform.  The embedding threads a [World] through a small
    state-and-exception monad; the file system and the clock are oracles
    of the environment, and everything the code sends out is appended to
    a trace. *)

From Stdlib Require Import QArith Ascii.
From stdpp Require Import gmap strings list fin_maps pretty.

Local Open Scope string_scope.
Local Open Scope list_scope.
Local Open Scope Z_scope.

(** ** Data model *)

(** One guild's record: [{"adminIDs": [...], "targetIDs": [...], "message": "..."}]. *)
Record GuildState := mkGuildState {
  adminIDs : list Z;
  targetIDs : list Z;
  message : string
}.

(** The global [state] dictionary, keyed by [str(guild_id)]. *)
Abbreviation State := (gmap string GuildState).

(** Python exceptions met in the module, by the class an [except] clause
    tests.  [IOError] and [JSONDecodeError] are subclasses of [Exception];
    [OtherException] stands for every other subclass. *)
Inductive ExcClass := IOError | JSONDecodeError | OtherException.

Record Exc := mkExc { exc_class : ExcClass; exc_msg : string }.

Inductive Result (A : Type) :=
| Ok (a : A)
| Raise (e : Exc).
Arguments Ok {A} a.
Arguments Raise {A} e.

(** [discord.User]: the id and the platform's bot flag. *)
Record User := mkUser { user_id : Z; bot : bool }.

(** [discord.Interaction]: [guild_id], [user] and [guild.owner_id]. *)
Record Interaction := mkInteraction {
  guild_id : Z;
  user : User;
  guild_owner_id : Z
}.

(** [message.guild], when the message was sent in a guild. *)
Record Guild := mkGuild { id : Z; owner_id : Z }.

Record Message := mkMessage {
  author : User;
  guild : option Guild
}.

(** The [action] choice of [/admin] and [/target]. *)
Inductive Action := Add | Remove.

(** The texts handed to [interaction.response.send_message], one
    constructor per literal of the source. *)
Inductive Response :=
| NoPermission            (* "You do not have permission to use this command." *)
| CannotAddBotAdmin       (* "Cannot add bots to the admin list." *)
| AlreadyAdmin (u : Z)    (* "User {mention} is already an admin." *)
| AddedAdmin (u : Z)      (* "Successfully added {mention} as an admin." *)
| SaveFailed              (* "Failed to save configuration. Please try again." *)
| CannotRemoveOwner       (* "Cannot remove the server owner from admin list." *)
| NotAdmin (u : Z)        (* "User {mention} is not an admin." *)
| SelfDemoted             (* "You have been removed from the admin list." *)
| ConfirmPrompt           (* "Are you sure you want to remove yourself as admin? ..." *)
| RemovedAdmin (u : Z)    (* "Successfully removed {mention} from admin list." *)
| CannotAddBotTarget      (* "Cannot add bots to the target list." *)
| AlreadyTarget (u : Z)   (* "User {mention} is already in the target list." *)
| AddedTarget (u : Z)     (* "Successfully added {mention} to the target list." *)
| NotTarget (u : Z)       (* "User {mention} is not in the target list." *)
| RemovedTarget (u : Z)   (* "Successfully removed {mention} from the target list." *)
| MessageSet (text : string)  (* "Successfully set the message to: {text}" *)
| Info (targets : list Z) (admins : gset Z) (msg : string).

(** What the process does to the outside, in order. *)
Inductive Event :=
| EvWrite (doc : State) (outcome : option Exc)
    (* one [open(STATE_FILE, 'w')] + [json.dump]: [None] when it went through *)
| EvSleep (d : Q)              (* [time.sleep(d)] *)
| EvSend (r : Response)        (* [interaction.response.send_message] *)
| EvReply (text : string).     (* [message.reply] *)

(** The environment: what the [n]-th reading of the clock returns, how the
    [n]-th attempt to write the state file ends, and [client.user]. *)
Record Env := mkEnv {
  clock : nat -> Q;
  write_fault : nat -> option Exc;
  client_user : Z
}.

Record World := mkWorld {
  state : State;
  pending_confirmations : gmap string Q;
  clock_reads : nat;
  write_attempts : nat;
  trace : list Event
}.

(** ** The monad of handlers *)

Definition M (A : Type) : Type := World -> Result A * World.

Definition ret {A} (a : A) : M A := fun w => (Ok a, w).

Definition bind {A B} (c : M A) (k : A -> M B) : M B :=
  fun w => match c w with
           | (Ok a, w') => k a w'
           | (Raise e, w') => (Raise e, w')
           end.

Definition raise {A} (e : Exc) : M A := fun w => (Raise e, w).

(** [try: c except cls as e: h e]; [catches] tells which classes the
    clause takes. *)
Definition try_except {A} (c : M A) (catches : ExcClass -> bool) (h : Exc -> M A) : M A :=
  fun w => match c w with
           | (Ok a, w') => (Ok a, w')
           | (Raise e, w') => if catches (exc_class e) then h e w' else (Raise e, w')
           end.

Notation "x <- c1 ;; c2" := (bind c1 (fun x => c2))
  (at level 100, c1 at next level, right associativity).
Notation "c1 ;; c2" := (bind c1 (fun _ => c2))
  (at level 100, right associativity).

Definition except_IOError (c : ExcClass) : bool :=
  match c with IOError => true | _ => false end.

Definition get_state : M State := fun w => (Ok (state w), w).

Definition set_state (st : State) : M unit := fun w =>
  (Ok tt, mkWorld st (pending_confirmations w) (clock_reads w) (write_attempts w) (trace w)).

Definition get_pending : M (gmap string Q) := fun w => (Ok (pending_confirmations w), w).

Definition set_pending (pc : gmap string Q) : M unit := fun w =>
  (Ok tt, mkWorld (state w) pc (clock_reads w) (write_attempts w) (trace w)).

Definition emit (ev : Event) : M unit := fun w =>
  (Ok tt, mkWorld (state w) (pending_confirmations w) (clock_reads w) (write_attempts w)
            (trace w ++ [ev])).

Section Program.

Variable env : Env.

(** [datetime.now().timestamp()] *)
Definition now : M Q := fun w =>
  (Ok (clock env (clock_reads w)),
   mkWorld (state w) (pending_confirmations w) (S (clock_reads w)) (write_attempts w) (trace w)).

(** The body of the [try] in [save_state]: open the file for writing and
    dump the document.  The result is the exception it ended with, if any. *)
Definition write_file (doc : State) : M (option Exc) := fun w =>
  let outcome := write_fault env (write_attempts w) in
  (Ok outcome,
   mkWorld (state w) (pending_confirmations w) (clock_reads w) (S (write_attempts w))
     (trace w ++ [EvWrite doc outcome])).

Definition sleep (d : Q) : M unit := emit (EvSleep d).

Definition send_message (r : Response) : M unit := emit (EvSend r).

(** ** Persistence *)

Definition MAX_SAVE_RETRIES : nat := 3.
Definition RETRY_DELAY : Q := 1 # 2.

(** [str(last_error)] *)
Definition str_error (last_error : option Exc) : string :=
  match last_error with
  | None => "None"
  | Some e => exc_msg e
  end.

(** The [for attempt in range(MAX_SAVE_RETRIES)] loop of [save_state],
    over the attempts still to make, and the [raise] after it. *)
Fixpoint save_loop (doc : State) (attempts : list nat) (last_error : option Exc) : M unit :=
  match attempts with
  | [] =>
      raise (mkExc IOError
               ("Failed to save state after " +:+ pretty MAX_SAVE_RETRIES +:+ " attempts: "
                +:+ str_error last_error))
  | attempt :: rest =>
      r <- write_file doc ;;
      match r with
      | None => ret tt
      | Some e =>
          match exc_class e with
          | IOError =>
              (if (attempt <? MAX_SAVE_RETRIES - 1)%nat then sleep RETRY_DELAY else ret tt) ;;
              save_loop doc rest (Some e)
          | _ =>
              (if (attempt <? MAX_SAVE_RETRIES - 1)%nat then sleep RETRY_DELAY else ret tt) ;;
              save_loop doc rest (Some e)
          end
      end
  end.

Definition save_state (doc : State) : M unit :=
  save_loop doc (seq 0 MAX_SAVE_RETRIES) None.

(** What [load_state] meets: whether the file exists, what opening it
    gives, and what [json.load] gives. *)
Record StateFile := mkStateFile {
  file_exists : bool;
  open_read : option Exc;          (* the exception [open] raises, if any *)
  json_load : Result State         (* the document, or the exception of the parse *)
}.

(** The [try] block of [load_state]. *)
Definition load_state_body (f : StateFile) : Result State :=
  if file_exists f then
    match open_read f with
    | Some e => Raise e
    | None =>
        match json_load f with
        | Ok data => Ok data
        | Raise e => Raise e
        end
    end
  else Ok ∅.

Definition load_state (f : StateFile) : Result State :=
  match load_state_body f with
  | Ok data => Ok data
  | Raise e =>
      match exc_class e with
      | JSONDecodeError => Ok ∅
      | IOError => Ok ∅
      | OtherException => Ok ∅
      end
  end.

(** ** Guild-state accessor *)

(** [x in l] on a list of ints. *)
Definition py_in (x : Z) (l : list Z) : bool := existsb (Z.eqb x) l.

(** [l.remove(x)]: drops the first occurrence; [None] is [ValueError]. *)
Fixpoint py_remove (x : Z) (l : list Z) : option (list Z) :=
  match l with
  | [] => None
  | y :: l' => if y =? x then Some l' else cons y <$> py_remove x l'
  end.

(** A reference to a guild's dictionary inside [state]: the record is
    created once under its key and mutated in place ever after, so the
    key stands for the object. *)
Abbreviation GuildRef := string.

(** Reading through the reference; a missing key is Python's [KeyError]. *)
Definition deref (r : GuildRef) : M GuildState := fun w =>
  match state w !! r with
  | Some gs => (Ok gs, w)
  | None => (Raise (mkExc OtherException "KeyError"), w)
  end.

(** In-place mutation of the record behind the reference. *)
Definition mutate (r : GuildRef) (f : GuildState -> GuildState) : M unit :=
  gs <- deref r ;;
  st <- get_state ;;
  set_state (<[r := f gs]> st).

Definition set_adminIDs (l : list Z) (gs : GuildState) : GuildState :=
  mkGuildState l (targetIDs gs) (message gs).
Definition set_targetIDs (l : list Z) (gs : GuildState) : GuildState :=
  mkGuildState (adminIDs gs) l (message gs).
Definition set_message (s : string) (gs : GuildState) : GuildState :=
  mkGuildState (adminIDs gs) (targetIDs gs) s.

Definition get_guild_state (guild_id : Z) (owner_id : option Z) : M GuildRef :=
  let guild_key := pretty guild_id in
  st <- get_state ;;
  (match st !! guild_key with
   | None =>
       let admin_ids := match owner_id with Some o => [o] | None => [] end in
       set_state (<[guild_key := mkGuildState admin_ids [] ""]> st)
   | Some gs =>
       match owner_id with
       | Some o =>
           if negb (py_in o (adminIDs gs)) then
             mutate guild_key (fun gs => set_adminIDs (adminIDs gs ++ [o]) gs) ;;
             try_except (st' <- get_state ;; save_state st')
                        except_IOError (fun _ => ret tt)
           else ret tt
       | None => ret tt
       end
   end) ;;
  ret guild_key.

(** ** Authorization *)

Definition is_admin (guild_id user_id owner_id : Z) : M bool :=
  if user_id =? owner_id then ret true
  else
    guild_state <- get_guild_state guild_id (Some owner_id) ;;
    gs <- deref guild_state ;;
    ret (py_in user_id (adminIDs gs)).

Definition is_target (guild_id user_id : Z) (owner_id : option Z) : M bool :=
  guild_state <- get_guild_state guild_id owner_id ;;
  gs <- deref guild_state ;;
  ret (py_in user_id (targetIDs gs)).

(** ** Confirmation of self-demotion *)

(** [f"{guild_id}_{user_id}"] *)
Definition confirmation_key (guild_id user_id : Z) : string :=
  pretty guild_id +:+ "_" +:+ pretty user_id.

Definition request_confirmation (guild_id user_id : Z) : M unit :=
  let key := confirmation_key guild_id user_id in
  t <- now ;;
  pc <- get_pending ;;
  set_pending (<[key := t]> pc).

Definition check_confirmation (guild_id user_id : Z) : M bool :=
  let key := confirmation_key guild_id user_id in
  pc <- get_pending ;;
  match pc !! key with
  | None => ret false
  | Some request_time =>
      current_time <- now ;;
      if Qle_bool (current_time - request_time) 60 then ret true
      else
        pc <- get_pending ;;
        set_pending (delete key pc) ;;
        ret false
  end.

Definition clear_confirmation (guild_id user_id : Z) : M unit :=
  let key := confirmation_key guild_id user_id in
  pc <- get_pending ;;
  match pc !! key with
  | Some _ => set_pending (delete key pc)
  | None => ret tt
  end.

(** ** Event and command handlers *)

(** [l.remove(x)] as a step of a handler. *)
Definition list_remove (x : Z) (l : list Z) : M (list Z) :=
  match py_remove x l with
  | Some l' => ret l'
  | None => raise (mkExc OtherException "ValueError")
  end.

(** [on_message].  A failure of [message.reply] is caught and logged by
    the handler; the trace records the reply that was asked for. *)
Definition on_message (msg : Message) : M unit :=
  if user_id (author msg) =? client_user env then ret tt
  else
    match guild msg with
    | None => ret tt
    | Some g =>
        let guild_id := id g in
        let author_id := user_id (author msg) in
        let owner_id := owner_id g in
        targeted <- is_target guild_id author_id (Some owner_id) ;;
        if targeted then
          guild_state <- get_guild_state guild_id (Some owner_id) ;;
          gs <- deref guild_state ;;
          let reply_message := message gs in
          if negb (String.eqb reply_message "") then emit (EvReply reply_message)
          else ret tt
        else ret tt
    end.

Definition admin_command (interaction : Interaction) (action : Action) (u : User) : M unit :=
  let guild_id := guild_id interaction in
  let executor_id := user_id (user interaction) in
  let owner_id := guild_owner_id interaction in
  let target_user_id := user_id u in
  authorized <- is_admin guild_id executor_id owner_id ;;
  if negb authorized then send_message NoPermission
  else
    guild_state <- get_guild_state guild_id None ;;
    match action with
    | Add =>
        if bot u then send_message CannotAddBotAdmin
        else
          gs <- deref guild_state ;;
          if py_in target_user_id (adminIDs gs) || (target_user_id =? owner_id) then
            send_message (AlreadyAdmin target_user_id)
          else
            mutate guild_state (fun gs => set_adminIDs (adminIDs gs ++ [target_user_id]) gs) ;;
            try_except
              (st <- get_state ;; save_state st ;;
               send_message (AddedAdmin target_user_id))
              except_IOError
              (fun _ => send_message SaveFailed)
    | Remove =>
        if target_user_id =? owner_id then send_message CannotRemoveOwner
        else
          gs <- deref guild_state ;;
          if negb (py_in target_user_id (adminIDs gs)) then
            send_message (NotAdmin target_user_id)
          else if target_user_id =? executor_id then
            confirmed <- check_confirmation guild_id executor_id ;;
            if confirmed then
              gs <- deref guild_state ;;
              l <- list_remove target_user_id (adminIDs gs) ;;
              mutate guild_state (set_adminIDs l) ;;
              clear_confirmation guild_id executor_id ;;
              try_except
                (st <- get_state ;; save_state st ;;
                 send_message SelfDemoted)
                except_IOError
                (fun _ => send_message SaveFailed)
            else
              request_confirmation guild_id executor_id ;;
              send_message ConfirmPrompt
          else
            gs <- deref guild_state ;;
            l <- list_remove target_user_id (adminIDs gs) ;;
            mutate guild_state (set_adminIDs l) ;;
            try_except
              (st <- get_state ;; save_state st ;;
               send_message (RemovedAdmin target_user_id))
              except_IOError
              (fun _ => send_message SaveFailed)
    end.

Definition target_command (interaction : Interaction) (action : Action) (u : User) : M unit :=
  let guild_id := guild_id interaction in
  let executor_id := user_id (user interaction) in
  let owner_id := guild_owner_id interaction in
  let target_user_id := user_id u in
  authorized <- is_admin guild_id executor_id owner_id ;;
  if negb authorized then send_message NoPermission
  else
    guild_state <- get_guild_state guild_id (Some owner_id) ;;
    match action with
    | Add =>
        if bot u then send_message CannotAddBotTarget
        else
          gs <- deref guild_state ;;
          if py_in target_user_id (targetIDs gs) then
            send_message (AlreadyTarget target_user_id)
          else
            mutate guild_state (fun gs => set_targetIDs (targetIDs gs ++ [target_user_id]) gs) ;;
            try_except
              (st <- get_state ;; save_state st ;;
               send_message (AddedTarget target_user_id))
              except_IOError
              (fun _ => send_message SaveFailed)
    | Remove =>
        gs <- deref guild_state ;;
        if negb (py_in target_user_id (targetIDs gs)) then
          send_message (NotTarget target_user_id)
        else
          l <- list_remove target_user_id (targetIDs gs) ;;
          mutate guild_state (set_targetIDs l) ;;
          try_except
            (st <- get_state ;; save_state st ;;
             send_message (RemovedTarget target_user_id))
            except_IOError
            (fun _ => send_message SaveFailed)
    end.

Definition setmessage_command (interaction : Interaction) (text : string) : M unit :=
  let guild_id := guild_id interaction in
  let executor_id := user_id (user interaction) in
  let owner_id := guild_owner_id interaction in
  authorized <- is_admin guild_id executor_id owner_id ;;
  if negb authorized then send_message NoPermission
  else
    guild_state <- get_guild_state guild_id (Some owner_id) ;;
    mutate guild_state (set_message text) ;;
    try_except
      (st <- get_state ;; save_state st ;;
       send_message (MessageSet text))
      except_IOError
      (fun _ => send_message SaveFailed).

(** [info_command]: the response is built from the targets in list
    order, the set [set(adminIDs) | {owner_id}] and the message. *)
Definition info_command (interaction : Interaction) : M unit :=
  let guild_id := guild_id interaction in
  let owner_id := guild_owner_id interaction in
  guild_state <- get_guild_state guild_id (Some owner_id) ;;
  gs <- deref guild_state ;;
  let admin_ids : gset Z := list_to_set (adminIDs gs) ∪ {[owner_id]} in
  send_message (Info (targetIDs gs) admin_ids (message gs)).

(** ** Runs of the process *)

(** What can happen to the process, one at a time: the four commands, an
    inbound chat message, and a bare call of the accessor. *)
Inductive Op :=
| OpAdmin (i : Interaction) (a : Action) (u : User)
| OpTarget (i : Interaction) (a : Action) (u : User)
| OpSetMessage (i : Interaction) (text : string)
| OpInfo (i : Interaction)
| OpMessage (m : Message)
| OpAccessor (guild_id : Z) (owner_id : option Z).

Definition run_op (op : Op) : M unit :=
  match op with
  | OpAdmin i a u => admin_command i a u
  | OpTarget i a u => target_command i a u
  | OpSetMessage i text => setmessage_command i text
  | OpInfo i => info_command i
  | OpMessage m => on_message m
  | OpAccessor g o => get_guild_state g o ;; ret tt
  end.

(** Handlers run to completion one after the other; an exception that
    escapes one is the event loop's to log and does not stop the rest. *)
Fixpoint run_ops (ops : list Op) (w : World) : World :=
  match ops with
  | [] => w
  | op :: ops' => run_ops ops' (snd (run_op op w))
  end.

End Program.

(** ** Views of a world *)

(** The guild's admin list as the code sees it; a guild without a record
    has none. *)
Definition admins_of (st : State) (g : Z) : list Z :=
  match st !! pretty g with
  | Some gs => adminIDs gs
  | None => []
  end.

Definition targets_of (st : State) (g : Z) : list Z :=
  match st !! pretty g with
  | Some gs => targetIDs gs
  | None => []
  end.

(** The replies asked for, and the write attempts made, in a trace. *)
Fixpoint replies (tr : list Event) : list string :=
  match tr with
  | [] => []
  | EvReply text :: tr' => text :: replies tr'
  | _ :: tr' => replies tr'
  end.

Fixpoint writes (tr : list Event) : list (option Exc) :=
  match tr with
  | [] => []
  | EvWrite _ outcome :: tr' => outcome :: writes tr'
  | _ :: tr' => writes tr'
  end.

Definition empty_world : World := mkWorld ∅ ∅ 0 0 [].

(** An environment where the clock reads [t] at every reading and every
    write goes through. *)
Definition calm_env (t : Q) (bot_id : Z) : Env :=
  mkEnv (fun _ => t) (fun _ => None) bot_id.

(** A file system on which every write fails. *)
Definition broken_disk_env : Env :=
  mkEnv (fun _ => 0%Q) (fun _ => Some (mkExc IOError "disk full")) 100.

(** The responses sent in a stretch of trace, in order. *)
Fixpoint responses (tr : list Event) : list Response :=
  match tr with
  | [] => []
  | EvSend r :: tr' => r :: responses tr'
  | _ :: tr' => responses tr'
  end.

Fixpoint sleeps (tr : list Event) : list Q :=
  match tr with
  | [] => []
  | EvSleep d :: tr' => d :: sleeps tr'
  | _ :: tr' => sleeps tr'
  end.

(** [w] after [n] more write attempts and the events [tr], memory untouched. *)
Definition logged (w : World) (n : nat) (tr : list Event) : World :=
  mkWorld (state w) (pending_confirmations w) (clock_reads w)
          (n + write_attempts w)%nat (trace w ++ tr).

(** The accessor's effect on one record: created with the owner (when
    given) as only admin, or the owner appended when missing. *)
Definition healed_record (o : option Z) (rec : option GuildState) : GuildState :=
  match rec with
  | None => mkGuildState (match o with Some o => [o] | None => [] end) [] ""
  | Some gs =>
      match o with
      | Some o => if py_in o (adminIDs gs) then gs else set_adminIDs (adminIDs gs ++ [o]) gs
      | None => gs
      end
  end.

(** The same on the admin list alone. *)
Definition heal (o : Z) (l : list Z) : list Z :=
  if py_in o l then l else l ++ [o].

(** What a stretch of a run leaves alone: the two dictionaries and the
    clock ([memory_kept]), the chat platform ([silent]). *)
Definition memory_kept (w w' : World) : Prop :=
  state w' = state w ∧ pending_confirmations w' = pending_confirmations w
  ∧ clock_reads w' = clock_reads w.

Definition silent (w w' : World) : Prop :=
  ∃ tr, trace w' = trace w ++ tr ∧ responses tr = [] ∧ replies tr = [].

(** A stretch of trace that reaches nobody on the chat platform. *)
Definition quiet (tr : list Event) : Prop := responses tr = [] ∧ replies tr = [].

(** The world [w] with the document [st], [n] more write attempts and
    the events [tr]. *)
Definition evolve (w : World) (st : State) (n : nat) (tr : list Event) : World :=
  mkWorld st (pending_confirmations w) (clock_reads w) (n + write_attempts w)%nat
          (trace w ++ tr).

(** How the persist-and-report end of a mutating command shows in the
    stretch of trace the command produced: the success text [ok] after a
    write attempt that went through, or [SaveFailed] after three
    attempts in a row that did not. *)
Definition persisted (ok : Response) (tr : list Event) : Prop :=
  (responses tr = [ok] ∧ last (writes tr) = Some None)
  ∨ (responses tr = [SaveFailed]
     ∧ ∃ pre e1 e2 e3, writes tr = pre ++ [Some e1; Some e2; Some e3]).

(** The admin list once [is_admin] has run for actor [x] under owner
    [o]: the owner short-circuit leaves it alone, any other actor goes
    through the accessor. *)
Definition after_auth (x o : Z) (l : list Z) : list Z :=
  if x =? o then l else heal o l.

Definition authorized (x o : Z) (l : list Z) : bool :=
  (x =? o) || py_in x l.

(** [l] without the first occurrence of [x]. *)
Definition remove_first (x : Z) (l : list Z) : list Z :=
  default l (py_remove x l).

Definition message_of (st : State) (g : Z) : string :=
  match st !! pretty g with
  | Some gs => message gs
  | None => ""
  end.

(** Invariant I2 on a whole document. *)
Definition no_duplicates (st : State) : Prop :=
  ∀ k gs, st !! k = Some gs -> NoDup (adminIDs gs) ∧ NoDup (targetIDs gs).

(** The record a command works on: what [is_admin] for actor [x] and
    then the command's own [get_guild_state] (called with [fetch_owner])
    leave under the guild's key. *)
Definition fetched (x o : Z) (fetch_owner : option Z) (rec : option GuildState) : GuildState :=
  healed_record fetch_owner
    (if x =? o then rec else Some (healed_record (Some o) rec)).

(** How a command ends: turned down with a text, or mutated and handed
    to the persist-and-report block with its success text. *)
Inductive Verdict :=
| Rejected (r : Response)
| Committed (ok : Response).

Definition reported (v : Verdict) (tr : list Event) : Prop :=
  match v with
  | Rejected r => responses tr = [r]
  | Committed ok => persisted ok tr
  end.

(** What a command decides: the record it leaves, the confirmations, the
    number of clock readings, and the verdict. *)
Record Outcome := mkOutcome {
  out_record : GuildState;
  out_pending : gmap string Q;
  out_reads : nat;
  out_verdict : Verdict
}.

(** [check_confirmation] on the confirmation map and the clock alone. *)
Definition check_pure (clk : nat -> Q) (key : string) (pc : gmap string Q) (reads : nat)
  : bool * gmap string Q * nat :=
  match pc !! key with
  | None => (false, pc, reads)
  | Some request_time =>
      if Qle_bool (clk reads - request_time) 60 then (true, pc, S reads)
      else (false, delete key pc, S reads)
  end.

(** The decision of [/admin] for an authorized actor [x], on the fetched
    record [gs]. *)
Definition admin_outcome (clk : nat -> Q) (g x o : Z) (a : Action) (u : User)
    (gs : GuildState) (pc : gmap string Q) (reads : nat) : Outcome :=
  let t := user_id u in
  let key := confirmation_key g x in
  match a with
  | Add =>
      if bot u then mkOutcome gs pc reads (Rejected CannotAddBotAdmin)
      else if py_in t (adminIDs gs) || (t =? o) then
        mkOutcome gs pc reads (Rejected (AlreadyAdmin t))
      else
        mkOutcome (set_adminIDs (adminIDs gs ++ [t]) gs) pc reads (Committed (AddedAdmin t))
  | Remove =>
      if t =? o then mkOutcome gs pc reads (Rejected CannotRemoveOwner)
      else if negb (py_in t (adminIDs gs)) then mkOutcome gs pc reads (Rejected (NotAdmin t))
      else if t =? x then
        match check_pure clk key pc reads with
        | (true, pc1, reads1) =>
            mkOutcome (set_adminIDs (remove_first t (adminIDs gs)) gs)
                      (delete key pc1) reads1 (Committed SelfDemoted)
        | (false, pc1, reads1) =>
            mkOutcome gs (<[key := clk reads1]> pc1) (S reads1) (Rejected ConfirmPrompt)
        end
      else
        mkOutcome (set_adminIDs (remove_first t (adminIDs gs)) gs) pc reads
                  (Committed (RemovedAdmin t))
  end.

(** The decision of [/target]. *)
Definition target_outcome (a : Action) (u : User)
    (gs : GuildState) (pc : gmap string Q) (reads : nat) : Outcome :=
  let t := user_id u in
  match a with
  | Add =>
      if bot u then mkOutcome gs pc reads (Rejected CannotAddBotTarget)
      else if py_in t (targetIDs gs) then mkOutcome gs pc reads (Rejected (AlreadyTarget t))
      else
        mkOutcome (set_targetIDs (targetIDs gs ++ [t]) gs) pc reads (Committed (AddedTarget t))
  | Remove =>
      if negb (py_in t (targetIDs gs)) then mkOutcome gs pc reads (Rejected (NotTarget t))
      else
        mkOutcome (set_targetIDs (remove_first t (targetIDs gs)) gs) pc reads
                  (Committed (RemovedTarget t))
  end.

(** A command with the permission check in front. *)
Definition gated (x o : Z) (rec : option GuildState) (pc : gmap string Q) (reads : nat)
    (fetch_owner : option Z) (decide : GuildState -> Outcome) : Outcome :=
  let gs := fetched x o fetch_owner rec in
  if authorized x o (match rec with Some r => adminIDs r | None => [] end)
  then decide gs
  else mkOutcome gs pc reads (Rejected NoPermission).

(** The world a command leaves, from its outcome. *)
Definition settle (w : World) (g : Z) (out : Outcome) (n : nat) (tr : list Event) : World :=
  mkWorld (<[pretty g := out_record out]> (state w)) (out_pending out) (out_reads out)
          (n + write_attempts w)%nat (trace w ++ tr).

(** The mutating commands, as one type. *)
Inductive Mutating :=
| MutAdmin (a : Action) (u : User)
| MutTarget (a : Action) (u : User)
| MutSetMessage (text : string).

Definition run_mutating (env : Env) (i : Interaction) (m : Mutating) : M unit :=
  match m with
  | MutAdmin a u => admin_command env i a u
  | MutTarget a u => target_command env i a u
  | MutSetMessage text => setmessage_command env i text
  end.

(** The success text of a mutating command run by actor [x]. *)
Definition success (m : Mutating) (x : Z) : Response :=
  match m with
  | MutAdmin Add u => AddedAdmin (user_id u)
  | MutAdmin Remove u => if user_id u =? x then SelfDemoted else RemovedAdmin (user_id u)
  | MutTarget Add u => AddedTarget (user_id u)
  | MutTarget Remove u => RemovedTarget (user_id u)
  | MutSetMessage text => MessageSet text
  end.

(** A confirmation of [x] in [g] is pending and within its window at the
    next reading of the clock. *)
Definition confirmed_now (env : Env) (g x : Z) (w : World) : bool :=
  match pending_confirmations w !! confirmation_key g x with
  | Some t => Qle_bool (clock env (clock_reads w) - t) 60
  | None => false
  end.

(** The command passes the permission check and its validation, and so
    reaches the mutate and persist steps. *)
Definition accepted (env : Env) (i : Interaction) (m : Mutating) (w : World) : bool :=
  let g := guild_id i in
  let x := user_id (user i) in
  let o := guild_owner_id i in
  let admins := after_auth x o (admins_of (state w) g) in
  let targets := targets_of (state w) g in
  authorized x o (admins_of (state w) g) &&
  match m with
  | MutAdmin Add u =>
      negb (bot u) && negb (py_in (user_id u) admins || (user_id u =? o))
  | MutAdmin Remove u =>
      negb (user_id u =? o) && py_in (user_id u) admins
      && (if user_id u =? x then confirmed_now env g x w else true)
  | MutTarget Add u => negb (bot u) && negb (py_in (user_id u) targets)
  | MutTarget Remove u => py_in (user_id u) targets
  | MutSetMessage _ => true
  end.

(** The in-memory change of a mutating command, between the document
    before the command and the document after it. *)
Definition mutation_applied (i : Interaction) (m : Mutating) (st st' : State) : Prop :=
  let g := guild_id i in
  let x := user_id (user i) in
  let o := guild_owner_id i in
  match m with
  | MutAdmin Add u =>
      admins_of st' g = after_auth x o (admins_of st g) ++ [user_id u]
  | MutAdmin Remove u =>
      admins_of st' g = remove_first (user_id u) (after_auth x o (admins_of st g))
  | MutTarget Add u => targets_of st' g = targets_of st g ++ [user_id u]
  | MutTarget Remove u => targets_of st' g = remove_first (user_id u) (targets_of st g)
  | MutSetMessage text => message_of st' g = text
  end.

(** The outcome of a mutating command in a world. *)
Definition outcome_of (env : Env) (i : Interaction) (m : Mutating) (w : World) : Outcome :=
  let g := guild_id i in
  let x := user_id (user i) in
  let o := guild_owner_id i in
  let pc := pending_confirmations w in
  let reads := clock_reads w in
  gated x o (state w !! pretty g) pc reads
    (match m with MutAdmin _ _ => None | _ => Some o end)
    (fun gs =>
       match m with
       | MutAdmin a u => admin_outcome (clock env) g x o a u gs pc reads
       | MutTarget a u => target_outcome a u gs pc reads
       | MutSetMessage text =>
           mkOutcome (set_message text gs) pc reads (Committed (MessageSet text))
       end).

(** Invariant I2 on one record. *)
Definition record_ok (gs : GuildState) : Prop :=
  NoDup (adminIDs gs) ∧ NoDup (targetIDs gs).

(** [on_ready]: the global [state] is replaced by what [load_state]
    returns, then the commands are synced; [sync] is the exception
    [tree.sync()] raises, if any, and both [except] clauses of the
    handler log it and go on. *)
Definition on_ready (f : StateFile) (sync : option Exc) : M unit :=
  data <- (fun w => (load_state f, w)) ;;
  set_state data ;;
  try_except (match sync with Some e => raise e | None => ret tt end)
             (fun _ => true) (fun _ => ret tt).

(** The guild an event is about, and the owner id it carries. *)
Definition op_guild (op : Op) : option Z :=
  match op with
  | OpAdmin i _ _ | OpTarget i _ _ | OpSetMessage i _ | OpInfo i => Some (guild_id i)
  | OpMessage m => id <$> guild m
  | OpAccessor g _ => Some g
  end.

Definition op_owner (op : Op) : option Z :=
  match op with
  | OpAdmin i _ _ | OpTarget i _ _ | OpSetMessage i _ | OpInfo i => Some (guild_owner_id i)
  | OpMessage m => owner_id <$> guild m
  | OpAccessor _ o => o
  end.

(** The record an event leaves under its guild's key, when it touches
    the document at all. *)
Definition op_effect (env : Env) (op : Op) (w : World) : option (Z * GuildState) :=
  match op with
  | OpAdmin i a u => Some (guild_id i, out_record (outcome_of env i (MutAdmin a u) w))
  | OpTarget i a u => Some (guild_id i, out_record (outcome_of env i (MutTarget a u) w))
  | OpSetMessage i text =>
      Some (guild_id i, out_record (outcome_of env i (MutSetMessage text) w))
  | OpInfo i =>
      Some (guild_id i,
            healed_record (Some (guild_owner_id i)) (state w !! pretty (guild_id i)))
  | OpMessage m =>
      if user_id (author m) =? client_user env then None
      else match guild m with
           | None => None
           | Some gd =>
               Some (id gd, healed_record (Some (owner_id gd)) (state w !! pretty (id gd)))
           end
  | OpAccessor g o => Some (g, healed_record o (state w !! pretty g))
  end.

(** An event that is a self-removal: [/admin remove] with the actor as
    target. *)
Definition is_self_removal (op : Op) : bool :=
  match op with
  | OpAdmin i Remove u => user_id u =? user_id (user i)
  | _ => false
  end.

(** No character of the string is an underscore. *)
Fixpoint underscore_free (s : string) : Prop :=
  match s with
  | EmptyString => True
  | String c s' => c ≠ "_"%char ∧ underscore_free s'
  end.

(** The index of the clock reading that an unconfirmed self-removal
    stores: [request_confirmation] reads the clock after
    [check_confirmation], which has read it once when an entry was
    there. *)
Definition prompt_reading (g x : Z) (w : World) : nat :=
  match pending_confirmations w !! confirmation_key g x with
  | Some _ => S (clock_reads w)
  | None => clock_reads w
  end.

(** ** Basic facts *)

#[local] Arguments pretty : simpl never.

Lemma py_in_spec (x : Z) (l : list Z) : py_in x l = true <-> x ∈ l.
Proof.
  unfold py_in. rewrite existsb_exists. split.
  - intros (y & Hy & Heq). apply Z.eqb_eq in Heq. subst y. by apply list_elem_of_In.
  - intros Hx. exists x. split; [by apply list_elem_of_In | apply Z.eqb_refl].
Qed.

Lemma py_in_false (x : Z) (l : list Z) : py_in x l = false <-> x ∉ l.
Proof.
  rewrite <- py_in_spec. destruct (py_in x l); split; congruence.
Qed.

Lemma py_in_app (x : Z) (l1 l2 : list Z) : py_in x (l1 ++ l2) = py_in x l1 || py_in x l2.
Proof. unfold py_in. apply existsb_app. Qed.

Lemma py_remove_in (x : Z) (l : list Z) : x ∈ l -> is_Some (py_remove x l).
Proof.
  induction l as [|y l IH]; intros Hx; [by apply elem_of_nil in Hx|].
  simpl. destruct (y =? x) eqn:E; [eauto|].
  apply elem_of_cons in Hx as [->|Hx]; [rewrite Z.eqb_refl in E; done|].
  destruct (IH Hx) as [l' ->]. simpl. eauto.
Qed.

Lemma py_remove_sublist (x : Z) (l l' : list Z) : py_remove x l = Some l' -> sublist l' l.
Proof.
  revert l'. induction l as [|y l IH]; intros l' H; simpl in H; [done|].
  destruct (y =? x).
  - injection H as <-. by apply sublist_cons.
  - destruct (py_remove x l) as [l''|] eqn:E; simpl in H; [|done].
    injection H as <-. apply sublist_skip. by apply IH.
Qed.

Lemma py_remove_NoDup (x : Z) (l l' : list Z) :
  py_remove x l = Some l' -> NoDup l -> NoDup l' ∧ x ∉ l'.
Proof.
  revert l'. induction l as [|y l IH]; intros l' H Hnd; simpl in H; [done|].
  apply NoDup_cons in Hnd as [Hy Hnd].
  destruct (y =? x) eqn:E.
  - injection H as <-. apply Z.eqb_eq in E. subst y. done.
  - destruct (py_remove x l) as [l''|] eqn:E'; simpl in H; [|done].
    injection H as <-. destruct (IH _ eq_refl Hnd) as [Hnd' Hx].
    apply Z.eqb_neq in E. split.
    + apply NoDup_cons. split; [|done].
      intros Hin. apply Hy. eapply elem_of_sublist; [exact Hin|].
      by eapply py_remove_sublist.
    + intros Hin. apply elem_of_cons in Hin as [->|Hin]; [done|]. by apply Hx.
Qed.

Lemma heal_NoDup (o : Z) (l : list Z) : NoDup l -> NoDup (heal o l).
Proof.
  intros Hnd. unfold heal. destruct (py_in o l) eqn:E; [done|].
  apply py_in_false in E. apply NoDup_app. split; [done|]. split.
  - intros x Hx Hxo. apply list_elem_of_singleton in Hxo. by subst.
  - apply NoDup_singleton.
Qed.

Lemma responses_app (tr1 tr2 : list Event) :
  responses (tr1 ++ tr2) = responses tr1 ++ responses tr2.
Proof.
  induction tr1 as [|[] tr1 IH]; simpl; [done|done|done| |done]. by rewrite IH.
Qed.

Lemma replies_app (tr1 tr2 : list Event) :
  replies (tr1 ++ tr2) = replies tr1 ++ replies tr2.
Proof.
  induction tr1 as [|[] tr1 IH]; simpl; [done|done|done|done|]. by rewrite IH.
Qed.

Lemma silent_refl w : silent w w.
Proof. exists []. by rewrite app_nil_r. Qed.

Lemma silent_trans w1 w2 w3 : silent w1 w2 -> silent w2 w3 -> silent w1 w3.
Proof.
  intros (tr1 & H1 & R1 & P1) (tr2 & H2 & R2 & P2). exists (tr1 ++ tr2).
  rewrite H2, H1, <- app_assoc, responses_app, replies_app, R1, R2, P1, P2. done.
Qed.

Lemma memory_kept_refl w : memory_kept w w.
Proof. done. Qed.

Lemma memory_kept_trans w1 w2 w3 : memory_kept w1 w2 -> memory_kept w2 w3 -> memory_kept w1 w3.
Proof. unfold memory_kept. intros (-> & -> & ->) (-> & -> & ->). done. Qed.

(** ** Persistence *)

Section Persistence.

Variable env : Env.

(** The retry loop, whatever the attempts left: it touches neither
    dictionary, sends nothing, and ends normally or with an [IOError]. *)
Lemma save_loop_frame doc attempts last w r w' :
  save_loop env doc attempts last w = (r, w') ->
  memory_kept w w' ∧ silent w w'
  ∧ (r = Ok tt ∨ ∃ e, r = Raise e ∧ exc_class e = IOError)
  ∧ (write_attempts w <= write_attempts w' <= write_attempts w + length attempts)%nat.
Proof.
  revert last w r w'. induction attempts as [|attempt rest IH]; intros last w r w' H.
  - simpl in H. unfold raise in H. injection H as <- <-.
    split; [apply memory_kept_refl|]. split; [apply silent_refl|].
    split; [right; eexists; split; [reflexivity|done]|simpl; lia].
  - simpl in H. unfold bind, write_file in H.
    set (w1 := mkWorld _ _ _ _ _) in H.
    assert (Hk1 : memory_kept w w1) by done.
    assert (Hs1 : silent w w1) by (by exists [EvWrite doc (write_fault env (write_attempts w))]).
    destruct (write_fault env (write_attempts w)) as [e|].
    + assert (∃ w2, memory_kept w1 w2 ∧ silent w1 w2 ∧ write_attempts w2 = write_attempts w1
                    ∧ save_loop env doc rest (Some e) w2 = (r, w')) as (w2 & Hk2 & Hs2 & Hw2 & H2).
      { change (MAX_SAVE_RETRIES - 1)%nat with 2%nat in H.
        destruct (exc_class e), (attempt <? 2)%nat;
          unfold sleep, emit, ret in H; simpl in H;
          (eexists; split; [|split; [|split; [|exact H]]]);
          try done; try apply silent_refl; by exists [EvSleep RETRY_DELAY]. }
      destruct (IH _ _ _ _ H2) as (Hk3 & Hs3 & Hr & Hle).
      split; [eauto using memory_kept_trans|]. split; [eauto using silent_trans|].
      split; [done|]. rewrite Hw2 in Hle. subst w1. simpl in *. lia.
    + unfold ret in H. injection H as <- <-.
      split; [done|]. split; [done|]. split; [by left|]. subst w1. simpl. lia.
Qed.

Lemma save_state_frame doc w r w' :
  save_state env doc w = (r, w') ->
  memory_kept w w' ∧ silent w w'
  ∧ (r = Ok tt ∨ ∃ e, r = Raise e ∧ exc_class e = IOError).
Proof.
  intros H. apply save_loop_frame in H as (? & ? & ? & ?). done.
Qed.

(** The four possible runs of [save_state], by what the file system
    does to the next three write attempts. *)
Lemma save_state_unrolled doc w :
  let p := write_attempts w in
  match write_fault env p with
  | None =>
      save_state env doc w = (Ok tt, logged w 1 [EvWrite doc None])
  | Some e1 =>
      match write_fault env (S p) with
      | None =>
          save_state env doc w =
          (Ok tt, logged w 2 [EvWrite doc (Some e1); EvSleep (1 # 2); EvWrite doc None])
      | Some e2 =>
          match write_fault env (S (S p)) with
          | None =>
              save_state env doc w =
              (Ok tt, logged w 3 [EvWrite doc (Some e1); EvSleep (1 # 2);
                                  EvWrite doc (Some e2); EvSleep (1 # 2);
                                  EvWrite doc None])
          | Some e3 =>
              save_state env doc w =
              (Raise (mkExc IOError ("Failed to save state after 3 attempts: " +:+ exc_msg e3)),
               logged w 3 [EvWrite doc (Some e1); EvSleep (1 # 2);
                           EvWrite doc (Some e2); EvSleep (1 # 2);
                           EvWrite doc (Some e3)])
          end
      end
  end.
Proof.
  unfold save_state, logged. simpl.
  unfold bind, write_file, sleep, emit, ret, raise. simpl.
  destruct (write_fault env (write_attempts w)) as [e1|] eqn:E1; [|done].
  destruct (write_fault env (S (write_attempts w))) as [e2|] eqn:E2.
  2:{ destruct (exc_class e1); simpl; rewrite E2, <- !app_assoc; done. }
  destruct (write_fault env (S (S (write_attempts w)))) as [e3|] eqn:E3.
  - destruct (exc_class e1); simpl; rewrite E2; destruct (exc_class e2); simpl; rewrite E3;
      destruct (exc_class e3); simpl; rewrite <- !app_assoc; reflexivity.
  - destruct (exc_class e1); simpl; rewrite E2; destruct (exc_class e2); simpl; rewrite E3;
      rewrite <- !app_assoc; reflexivity.
Qed.

(** C7.  Save retry semantics.  Whatever the file system does, [save_state]
    makes at most [MAX_SAVE_RETRIES] = 3 write attempts, sleeps
    [RETRY_DELAY] = 1/2 second between two consecutive attempts and
    nowhere else, returns at the first attempt that goes through without
    making another (one failure then one success: two attempts, one
    sleep, success), and when all three fail raises an [IOError] whose
    text ends with the text of the third, last, failure.  It never
    touches the in-memory document. *)
Theorem save_state_retry doc w :
  RETRY_DELAY == 1 # 2 ∧ MAX_SAVE_RETRIES = 3%nat
  ∧ ∃ r n tr,
      save_state env doc w = (r, logged w n tr)
      ∧ (n <= 3)%nat ∧ length (writes tr) = n
      ∧ sleeps tr = replicate (n - 1) (1 # 2)
      ∧ match write_fault env (write_attempts w),
              write_fault env (S (write_attempts w)),
              write_fault env (S (S (write_attempts w))) with
        | None, _, _ =>
            r = Ok tt ∧ tr = [EvWrite doc None]
        | Some e1, None, _ =>
            r = Ok tt
            ∧ tr = [EvWrite doc (Some e1); EvSleep (1 # 2); EvWrite doc None]
        | Some e1, Some e2, None =>
            r = Ok tt
            ∧ tr = [EvWrite doc (Some e1); EvSleep (1 # 2);
                    EvWrite doc (Some e2); EvSleep (1 # 2); EvWrite doc None]
        | Some e1, Some e2, Some e3 =>
            r = Raise (mkExc IOError
                         ("Failed to save state after 3 attempts: " +:+ exc_msg e3))
            ∧ tr = [EvWrite doc (Some e1); EvSleep (1 # 2);
                    EvWrite doc (Some e2); EvSleep (1 # 2); EvWrite doc (Some e3)]
        end.
Proof.
  split; [reflexivity|]. split; [reflexivity|].
  pose proof (save_state_unrolled doc w) as H. simpl in H.
  destruct (write_fault env (write_attempts w)) as [e1|].
  2:{ eexists _, _, _. split; [exact H|]. split; [lia|]. done. }
  destruct (write_fault env (S (write_attempts w))) as [e2|].
  2:{ eexists _, _, _. split; [exact H|]. split; [lia|]. done. }
  destruct (write_fault env (S (S (write_attempts w)))) as [e3|].
  - eexists _, _, _. split; [exact H|]. split; [lia|]. done.
  - eexists _, _, _. split; [exact H|]. split; [lia|]. done.
Qed.

End Persistence.

Lemma writes_app (tr1 tr2 : list Event) :
  writes (tr1 ++ tr2) = writes tr1 ++ writes tr2.
Proof.
  induction tr1 as [|[] tr1 IH]; simpl; [done| |done|done|done]. by rewrite IH.
Qed.

Lemma quiet_nil : quiet [].
Proof. done. Qed.

Lemma quiet_app tr1 tr2 : quiet tr1 -> quiet tr2 -> quiet (tr1 ++ tr2).
Proof.
  intros [R1 P1] [R2 P2]. split; [rewrite responses_app | rewrite replies_app];
    by rewrite ?R1, ?R2, ?P1, ?P2.
Qed.

Section Accessor.

Variable env : Env.

(** The two ways [save_state] ends, in the form the handlers use. *)
Lemma save_state_cases doc w :
  ∃ n tr, quiet tr ∧
    ((save_state env doc w = (Ok tt, logged w n tr) ∧ last (writes tr) = Some None)
     ∨ (∃ e e1 e2 e3, save_state env doc w = (Raise e, logged w n tr)
          ∧ exc_class e = IOError ∧ writes tr = [Some e1; Some e2; Some e3])).
Proof.
  pose proof (save_state_unrolled env doc w) as H. simpl in H.
  destruct (write_fault env (write_attempts w)) as [e1|].
  2:{ eexists _, _. split; [|left; split; [exact H|done]]. done. }
  destruct (write_fault env (S (write_attempts w))) as [e2|].
  2:{ eexists _, _. split; [|left; split; [exact H|done]]. done. }
  destruct (write_fault env (S (S (write_attempts w)))) as [e3|].
  2:{ eexists _, _. split; [|left; split; [exact H|done]]. done. }
  eexists _, _. split; [|right; eexists _, e1, e2, e3; split; [exact H|done]]. done.
Qed.

(** The [try: save_state(state) ... except IOError] block that ends every
    mutating command. *)
Lemma persist_run (ok : Response) w :
  ∃ n tr,
    try_except (st <- get_state ;; save_state env st ;; send_message ok)
               except_IOError (fun _ => send_message SaveFailed) w
    = (Ok tt, logged w n tr)
    ∧ replies tr = [] ∧ persisted ok tr.
Proof.
  unfold try_except, bind, get_state.
  destruct (save_state_cases (state w) w) as (n & tr & [Hr Hp] & [[-> Hl] | (e & e1 & e2 & e3 & -> & Hc & Hw)]).
  - exists n, (tr ++ [EvSend ok]). unfold send_message, emit, logged. simpl.
    rewrite <- app_assoc. split; [done|]. split.
    + by rewrite replies_app, Hp.
    + left. rewrite responses_app, Hr, writes_app. simpl. rewrite app_nil_r. done.
  - exists n, (tr ++ [EvSend SaveFailed]). rewrite Hc. unfold send_message, emit, logged. simpl.
    rewrite <- app_assoc. split; [done|]. split.
    + by rewrite replies_app, Hp.
    + right. rewrite responses_app, Hr, writes_app, Hw. simpl.
      split; [done|]. by exists [], e1, e2, e3.
Qed.

(** [get_guild_state]: the record the caller gets is [healed_record] of
    what was there, nothing else in memory moves, and the only events are
    those of the best-effort save. *)
Lemma get_guild_state_run g o w :
  ∃ n tr,
    get_guild_state env g o w
    = (Ok (pretty g),
       evolve w (<[pretty g := healed_record o (state w !! pretty g)]> (state w)) n tr)
    ∧ quiet tr.
Proof.
  unfold get_guild_state, bind, get_state.
  remember (pretty g) as k eqn:Hk. clear Hk.
  destruct (state w !! k) as [gs|] eqn:E; simpl.
  - destruct o as [o|]; simpl.
    + destruct (py_in o (adminIDs gs)) eqn:Ein; simpl.
      * exists 0%nat, []. unfold ret, evolve. rewrite insert_id by done.
        rewrite app_nil_r. destruct w; done.
      * unfold mutate, bind, deref, get_state, set_state. rewrite E. simpl.
        unfold try_except, bind, get_state. simpl.
        match goal with |- context [save_state env ?doc ?w0] =>
          destruct (save_state_cases doc w0)
            as (n & tr & Hq & [[-> _] | (e & e1 & e2 & e3 & -> & Hc & _)]) end.
        -- exists n, tr. unfold ret, logged, evolve. simpl. done.
        -- exists n, tr. rewrite Hc. unfold ret, logged, evolve. simpl. done.
    + exists 0%nat, []. unfold ret, evolve. rewrite insert_id by done.
      rewrite app_nil_r. destruct w; done.
  - exists 0%nat, []. unfold set_state, ret, evolve. simpl. rewrite app_nil_r. done.
Qed.

End Accessor.

(** ** Running the handlers *)

Lemma evolve_id w : evolve w (state w) 0 [] = w.
Proof. destruct w. unfold evolve. simpl. by rewrite app_nil_r. Qed.

Lemma evolve_evolve w st1 n1 tr1 st2 n2 tr2 :
  evolve (evolve w st1 n1 tr1) st2 n2 tr2 = evolve w st2 (n2 + n1) (tr1 ++ tr2).
Proof. unfold evolve. simpl. by rewrite Nat.add_assoc, app_assoc. Qed.

Lemma logged_evolve w st n1 tr1 n2 tr2 :
  logged (evolve w st n1 tr1) n2 tr2 = evolve w st (n2 + n1) (tr1 ++ tr2).
Proof. unfold logged, evolve. simpl. by rewrite Nat.add_assoc, app_assoc. Qed.

Lemma py_in_heal (x o : Z) (l : list Z) : x ≠ o -> py_in x (heal o l) = py_in x l.
Proof.
  intros Hne. unfold heal. destruct (py_in o l); [done|].
  rewrite py_in_app. simpl. apply Z.eqb_neq in Hne. rewrite Hne. by rewrite !orb_false_r.
Qed.

Lemma adminIDs_healed (o : Z) (rec : option GuildState) :
  adminIDs (healed_record (Some o) rec)
  = heal o (match rec with Some r => adminIDs r | None => [] end).
Proof.
  destruct rec as [gs|]; simpl; [|done]. unfold heal. by destruct (py_in o (adminIDs gs)).
Qed.

Lemma targetIDs_healed (o : option Z) (rec : option GuildState) :
  targetIDs (healed_record o rec)
  = match rec with Some r => targetIDs r | None => [] end.
Proof.
  destruct rec as [gs|], o as [o|]; simpl; try done. by destruct (py_in o (adminIDs gs)).
Qed.

Lemma message_healed (o : option Z) (rec : option GuildState) :
  message (healed_record o rec)
  = match rec with Some r => message r | None => "" end.
Proof.
  destruct rec as [gs|], o as [o|]; simpl; try done. by destruct (py_in o (adminIDs gs)).
Qed.

Lemma healed_record_again (o : Z) (rec : option GuildState) :
  healed_record (Some o) (Some (healed_record (Some o) rec)) = healed_record (Some o) rec.
Proof.
  destruct rec as [gs|]; simpl.
  - destruct (py_in o (adminIDs gs)) eqn:E; simpl; [by rewrite E|].
    rewrite py_in_app. simpl. by rewrite Z.eqb_refl, orb_true_r.
  - by rewrite Z.eqb_refl.
Qed.

(** The admin list of the fetched record. *)
Lemma adminIDs_fetched_None (x o : Z) (rec : option GuildState) :
  adminIDs (fetched x o None rec)
  = after_auth x o (match rec with Some r => adminIDs r | None => [] end).
Proof.
  unfold fetched, after_auth. destruct (x =? o); simpl.
  - by destruct rec.
  - apply adminIDs_healed.
Qed.

Lemma adminIDs_fetched_Some (x o : Z) (rec : option GuildState) :
  adminIDs (fetched x o (Some o) rec)
  = heal o (match rec with Some r => adminIDs r | None => [] end).
Proof.
  unfold fetched. destruct (x =? o).
  - apply adminIDs_healed.
  - rewrite healed_record_again. apply adminIDs_healed.
Qed.

Lemma targetIDs_fetched (x o : Z) fo (rec : option GuildState) :
  targetIDs (fetched x o fo rec)
  = match rec with Some r => targetIDs r | None => [] end.
Proof.
  unfold fetched. rewrite targetIDs_healed. destruct (x =? o); [done|].
  apply targetIDs_healed.
Qed.

Lemma message_fetched (x o : Z) fo (rec : option GuildState) :
  message (fetched x o fo rec)
  = match rec with Some r => message r | None => "" end.
Proof.
  unfold fetched. rewrite message_healed. destruct (x =? o); [done|].
  apply message_healed.
Qed.

Section Handlers.

Variable env : Env.

Lemma is_admin_run g x o w :
  ∃ n tr,
    is_admin env g x o w
    = (Ok (authorized x o (admins_of (state w) g)),
       evolve w (if x =? o then state w
                 else <[pretty g := healed_record (Some o) (state w !! pretty g)]> (state w))
              n tr)
    ∧ quiet tr.
Proof.
  unfold is_admin, authorized. destruct (Z.eqb_spec x o) as [->|Hne]; simpl.
  - exists 0%nat, []. by rewrite evolve_id.
  - unfold bind. destruct (get_guild_state_run env g (Some o) w) as (n & tr & -> & Hq).
    unfold deref. simpl. rewrite lookup_insert_eq. unfold ret.
    rewrite adminIDs_healed, py_in_heal by done. by exists n, tr.
Qed.

(** The permission check and the fetch of the record that open
    [/admin], [/target] and [/setmessage]; [denied] and [granted] are
    what the command does next. *)
Lemma fetch_run {A} g x o fo (denied : M A) (granted : string -> M A) w :
  fo = None ∨ fo = Some o ->
  ∃ n tr,
    quiet tr ∧
    (authorized <- is_admin env g x o ;;
     if negb authorized then denied
     else (guild_state <- get_guild_state env g fo ;; granted guild_state)) w
    = (if authorized x o (admins_of (state w) g) then granted (pretty g) else denied)
        (evolve w (<[pretty g := fetched x o fo (state w !! pretty g)]> (state w)) n tr).
Proof.
  intros Hfo.
  unfold bind at 1. destruct (is_admin_run g x o w) as (n1 & tr1 & -> & Hq1).
  unfold fetched. destruct (authorized x o (admins_of (state w) g)) eqn:Hauth; simpl.
  - unfold bind.
    match goal with |- context [get_guild_state env g fo ?w1] =>
      destruct (get_guild_state_run env g fo w1) as (n2 & tr2 & -> & Hq2) end.
    rewrite evolve_evolve. exists (n2 + n1)%nat, (tr1 ++ tr2).
    split; [by apply quiet_app|]. simpl.
    destruct (x =? o); [done|]. by rewrite lookup_insert_eq, insert_insert_eq.
  - unfold authorized in Hauth. apply orb_false_iff in Hauth as [-> _].
    exists n1, tr1. split; [done|]. do 2 f_equal.
    destruct Hfo as [-> | ->]; [done|]. by rewrite healed_record_again.
Qed.

Lemma check_confirmation_run g x w :
  check_confirmation env g x w
  = (let '(c, pc1, reads1) :=
       check_pure (clock env) (confirmation_key g x) (pending_confirmations w) (clock_reads w) in
     (Ok c, mkWorld (state w) pc1 reads1 (write_attempts w) (trace w))).
Proof.
  unfold check_confirmation, check_pure, bind, get_pending. simpl.
  destruct (pending_confirmations w !! confirmation_key g x) as [t|]; simpl.
  - destruct (Qle_bool (clock env (clock_reads w) - t) 60); done.
  - unfold ret. by destruct w.
Qed.

Lemma request_confirmation_run g x w :
  request_confirmation env g x w
  = (Ok tt, mkWorld (state w)
              (<[confirmation_key g x := clock env (clock_reads w)]> (pending_confirmations w))
              (S (clock_reads w)) (write_attempts w) (trace w)).
Proof. done. Qed.

Lemma clear_confirmation_run g x w :
  clear_confirmation g x w
  = (Ok tt, mkWorld (state w) (delete (confirmation_key g x) (pending_confirmations w))
              (clock_reads w) (write_attempts w) (trace w)).
Proof.
  unfold clear_confirmation, bind, get_pending. simpl.
  destruct (pending_confirmations w !! confirmation_key g x) eqn:E; simpl; [done|].
  unfold ret. rewrite delete_id by done. by destruct w.
Qed.

Lemma list_remove_run (x : Z) (l : list Z) w :
  py_in x l = true -> list_remove x l w = (Ok (remove_first x l), w).
Proof.
  intros Hin. apply py_in_spec, py_remove_in in Hin as [l' Hl'].
  unfold list_remove, remove_first. by rewrite Hl'.
Qed.

Lemma mutate_run (k : string) (f : GuildState -> GuildState) gs w :
  state w !! k = Some gs ->
  mutate k f w
  = (Ok tt, mkWorld (<[k := f gs]> (state w)) (pending_confirmations w) (clock_reads w)
              (write_attempts w) (trace w)).
Proof. intros H. unfold mutate, bind, deref, get_state, set_state. by rewrite H. Qed.

Lemma deref_run (k : string) gs w : state w !! k = Some gs -> deref k w = (Ok gs, w).
Proof. intros H. unfold deref. by rewrite H. Qed.

(** A rejection: one response and nothing else. *)
Lemma reject_run (r : Response) w st pc reads n tr :
  quiet tr ->
  ∃ n' tr',
    send_message r (mkWorld st pc reads (n + write_attempts w)%nat (trace w ++ tr))
    = (Ok tt, mkWorld st pc reads (n' + write_attempts w)%nat (trace w ++ tr'))
    ∧ replies tr' = [] ∧ responses tr' = [r].
Proof.
  intros [Hr Hp]. exists n, (tr ++ [EvSend r]). unfold send_message, emit. simpl.
  rewrite <- app_assoc, replies_app, responses_app, Hr, Hp. done.
Qed.

(** A commit: the persist-and-report block on the mutated world. *)
Lemma commit_run (ok : Response) w st pc reads n tr :
  quiet tr ->
  ∃ n' tr',
    try_except (st <- get_state ;; save_state env st ;; send_message ok)
               except_IOError (fun _ => send_message SaveFailed)
               (mkWorld st pc reads (n + write_attempts w)%nat (trace w ++ tr))
    = (Ok tt, mkWorld st pc reads (n' + write_attempts w)%nat (trace w ++ tr'))
    ∧ replies tr' = [] ∧ persisted ok tr'.
Proof.
  intros [Hr Hp].
  destruct (persist_run env ok (mkWorld st pc reads (n + write_attempts w)%nat (trace w ++ tr)))
    as (n2 & tr2 & -> & Hp2 & Hper).
  exists (n2 + n)%nat, (tr ++ tr2). unfold logged. simpl.
  rewrite Nat.add_assoc, <- app_assoc, replies_app, Hp, Hp2.
  split; [done|]. split; [done|].
  destruct Hper as [[H1 H2] | (H1 & pre & e1 & e2 & e3 & H2)]; [left | right];
    rewrite responses_app, Hr, writes_app; simpl.
  - split; [done|]. destruct (writes tr2) as [|a l] using rev_ind; [done|].
    by rewrite app_assoc, !last_snoc in *.
  - split; [done|]. exists (writes tr ++ pre), e1, e2, e3. by rewrite H2, app_assoc.
Qed.

(** Opens a command: runs the permission check and the fetch, and leaves
    the branch the command takes on the resulting world. *)
Ltac open_command w :=
  match goal with
  | |- context [bind (is_admin ?env ?g ?x ?o)
                  (fun b => if negb b then ?d else bind (get_guild_state ?env ?g ?fo) ?k)] =>
      let n := fresh "n" in let tr := fresh "tr" in
      let Hq := fresh "Hq" in let Hrun := fresh "Hrun" in
      destruct (fetch_run g x o fo d k w) as (n & tr & Hq & Hrun);
      [by auto | rewrite Hrun; clear Hrun]
  end.

(** Closes a branch with [reject_run] or [commit_run]. *)
Ltac close_branch lem :=
  match goal with
  | Hq : quiet ?tr0 |- context [mkWorld ?st ?pc ?reads (?n0 + write_attempts ?w)%nat (trace ?w ++ ?tr0)] =>
      let n := fresh "n" in let tr := fresh "tr" in
      let Hrun := fresh "Hrun" in let Hp := fresh "Hp" in let Hr := fresh "Hr" in
      destruct (lem w st pc reads n0 tr0 Hq) as (n & tr & Hrun & Hp & Hr);
      rewrite Hrun; exists n, tr; split; [|split; [exact Hp | exact Hr]];
      unfold settle; simpl; rewrite ?insert_insert_eq; reflexivity
  end.

(** [/admin] carries out [admin_outcome] behind the permission check. *)
Lemma admin_command_run i a u w :
  let g := guild_id i in
  let x := user_id (user i) in
  let o := guild_owner_id i in
  let out := gated x o (state w !! pretty g) (pending_confirmations w) (clock_reads w) None
               (fun gs => admin_outcome (clock env) g x o a u gs
                            (pending_confirmations w) (clock_reads w)) in
  ∃ n tr,
    admin_command env i a u w = (Ok tt, settle w g out n tr)
    ∧ replies tr = [] ∧ reported (out_verdict out) tr.
Proof.
  intros g x o. unfold admin_command. cbv zeta. fold g x o.
  open_command w. unfold gated, admins_of.
  set (gs := fetched x o None (state w !! pretty g)).
  destruct (authorized x o _); unfold evolve; simpl.
  2:{ close_branch (reject_run NoPermission). }
  unfold admin_outcome. destruct a.
  - destruct (bot u); [close_branch (reject_run CannotAddBotAdmin)|].
    unfold bind at 1. erewrite deref_run by apply lookup_insert_eq.
    destruct (py_in (user_id u) (adminIDs gs) || (user_id u =? o)).
    { close_branch (reject_run (AlreadyAdmin (user_id u))). }
    unfold bind at 1. erewrite mutate_run by apply lookup_insert_eq. simpl.
    close_branch (commit_run (AddedAdmin (user_id u))).
  - destruct (user_id u =? o); [close_branch (reject_run CannotRemoveOwner)|].
    unfold bind at 1. erewrite deref_run by apply lookup_insert_eq.
    destruct (py_in (user_id u) (adminIDs gs)) eqn:Hin; simpl.
    2:{ close_branch (reject_run (NotAdmin (user_id u))). }
    destruct (user_id u =? x) eqn:Hself.
    + apply Z.eqb_eq in Hself. rewrite Hself in *.
      unfold bind at 1. rewrite check_confirmation_run. simpl.
      destruct (check_pure _ _ _ _) as [[[|] pc1] reads1].
      * unfold bind at 1. erewrite deref_run by apply lookup_insert_eq.
        unfold bind at 1. rewrite list_remove_run by done.
        unfold bind at 1. erewrite mutate_run by apply lookup_insert_eq. simpl.
        unfold bind at 1. rewrite clear_confirmation_run. simpl.
        close_branch (commit_run SelfDemoted).
      * unfold bind at 1. rewrite request_confirmation_run. simpl.
        close_branch (reject_run ConfirmPrompt).
    + unfold bind at 1. erewrite deref_run by apply lookup_insert_eq.
      unfold bind at 1. rewrite list_remove_run by done.
      unfold bind at 1. erewrite mutate_run by apply lookup_insert_eq. simpl.
      close_branch (commit_run (RemovedAdmin (user_id u))).
Qed.

(** [/target] carries out [target_outcome] behind the permission check. *)
Lemma target_command_run i a u w :
  let g := guild_id i in
  let x := user_id (user i) in
  let o := guild_owner_id i in
  let out := gated x o (state w !! pretty g) (pending_confirmations w) (clock_reads w) (Some o)
               (fun gs => target_outcome a u gs (pending_confirmations w) (clock_reads w)) in
  ∃ n tr,
    target_command env i a u w = (Ok tt, settle w g out n tr)
    ∧ replies tr = [] ∧ reported (out_verdict out) tr.
Proof.
  intros g x o. unfold target_command. cbv zeta. fold g x o.
  open_command w. unfold gated, admins_of.
  set (gs := fetched x o (Some o) (state w !! pretty g)).
  destruct (authorized x o _); unfold evolve; simpl.
  2:{ close_branch (reject_run NoPermission). }
  unfold target_outcome. destruct a.
  - destruct (bot u); [close_branch (reject_run CannotAddBotTarget)|].
    unfold bind at 1. erewrite deref_run by apply lookup_insert_eq.
    destruct (py_in (user_id u) (targetIDs gs)).
    { close_branch (reject_run (AlreadyTarget (user_id u))). }
    unfold bind at 1. erewrite mutate_run by apply lookup_insert_eq. simpl.
    close_branch (commit_run (AddedTarget (user_id u))).
  - unfold bind at 1. erewrite deref_run by apply lookup_insert_eq.
    destruct (py_in (user_id u) (targetIDs gs)) eqn:Hin; simpl.
    2:{ close_branch (reject_run (NotTarget (user_id u))). }
    unfold bind at 1. rewrite list_remove_run by done.
    unfold bind at 1. erewrite mutate_run by apply lookup_insert_eq. simpl.
    close_branch (commit_run (RemovedTarget (user_id u))).
Qed.

(** [/setmessage] overwrites the message behind the permission check. *)
Lemma setmessage_command_run i text w :
  let g := guild_id i in
  let x := user_id (user i) in
  let o := guild_owner_id i in
  let out := gated x o (state w !! pretty g) (pending_confirmations w) (clock_reads w) (Some o)
               (fun gs => mkOutcome (set_message text gs) (pending_confirmations w)
                            (clock_reads w) (Committed (MessageSet text))) in
  ∃ n tr,
    setmessage_command env i text w = (Ok tt, settle w g out n tr)
    ∧ replies tr = [] ∧ reported (out_verdict out) tr.
Proof.
  intros g x o. unfold setmessage_command. cbv zeta. fold g x o.
  open_command w. unfold gated, admins_of.
  set (gs := fetched x o (Some o) (state w !! pretty g)).
  destruct (authorized x o _); unfold evolve; simpl.
  2:{ close_branch (reject_run NoPermission). }
  unfold bind at 1. erewrite mutate_run by apply lookup_insert_eq. simpl.
  close_branch (commit_run (MessageSet text)).
Qed.

Lemma is_target_run g u o w :
  let gs := healed_record o (state w !! pretty g) in
  ∃ n tr,
    is_target env g u o w
    = (Ok (py_in u (targetIDs gs)), evolve w (<[pretty g := gs]> (state w)) n tr)
    ∧ quiet tr.
Proof.
  intros gs. unfold is_target, bind.
  destruct (get_guild_state_run env g o w) as (n & tr & -> & Hq).
  erewrite deref_run by apply lookup_insert_eq. by exists n, tr.
Qed.

(** [/info]: the accessor, then one response. *)
Lemma info_command_run i w :
  let g := guild_id i in
  let o := guild_owner_id i in
  let gs := healed_record (Some o) (state w !! pretty g) in
  ∃ n tr,
    info_command env i w = (Ok tt, evolve w (<[pretty g := gs]> (state w)) n tr)
    ∧ replies tr = []
    ∧ responses tr = [Info (targetIDs gs) (list_to_set (adminIDs gs) ∪ {[o]}) (message gs)].
Proof.
  intros g o gs. unfold info_command, bind. fold g o.
  destruct (get_guild_state_run env g (Some o) w) as (n & tr & -> & Hr & Hp).
  erewrite deref_run by apply lookup_insert_eq. fold gs.
  exists n, (tr ++ [EvSend (Info (targetIDs gs) (list_to_set (adminIDs gs) ∪ {[o]}) (message gs))]).
  unfold send_message, emit, evolve. simpl.
  rewrite <- app_assoc, replies_app, responses_app, Hr, Hp. done.
Qed.

(** [on_message]: nothing at all for the bot's own message or outside a
    guild; otherwise the accessor, and the configured text as a reply
    when the author is a target and the text is not empty. *)
Lemma on_message_run msg w :
  if user_id (author msg) =? client_user env then on_message env msg w = (Ok tt, w)
  else
    match guild msg with
    | None => on_message env msg w = (Ok tt, w)
    | Some gd =>
        let gs := healed_record (Some (owner_id gd)) (state w !! pretty (id gd)) in
        ∃ n tr,
          on_message env msg w
          = (Ok tt, evolve w (<[pretty (id gd) := gs]> (state w)) n tr)
          ∧ responses tr = []
          ∧ replies tr
            = if py_in (user_id (author msg)) (targetIDs gs)
                 && negb (String.eqb (message gs) "")
              then [message gs] else []
    end.
Proof.
  unfold on_message. destruct (user_id (author msg) =? client_user env); [done|].
  destruct (guild msg) as [gd|]; [|done]. cbv zeta.
  set (gs := healed_record _ _). unfold bind at 1.
  destruct (is_target_run (id gd) (user_id (author msg)) (Some (owner_id gd)) w)
    as (n1 & tr1 & -> & Hr1 & Hp1). fold gs.
  destruct (py_in (user_id (author msg)) (targetIDs gs)); simpl.
  2:{ exists n1, tr1. done. }
  unfold bind at 1.
  match goal with |- context [get_guild_state env ?g ?o ?w1] =>
    destruct (get_guild_state_run env g o w1) as (n2 & tr2 & -> & Hr2 & Hp2) end.
  rewrite evolve_evolve. simpl. rewrite lookup_insert_eq, insert_insert_eq.
  subst gs. rewrite healed_record_again. set (gs := healed_record _ _).
  unfold bind. erewrite deref_run by apply lookup_insert_eq.
  destruct (String.eqb (message gs) ""); simpl.
  - exists (n2 + n1)%nat, (tr1 ++ tr2). unfold ret.
    rewrite responses_app, replies_app, Hr1, Hr2, Hp1, Hp2. done.
  - exists (n2 + n1)%nat, ((tr1 ++ tr2) ++ [EvReply (message gs)]).
    unfold emit, evolve. simpl.
    rewrite !responses_app, !replies_app, Hr1, Hr2, Hp1, Hp2, <- !app_assoc. done.
Qed.

End Handlers.

(** The facts of a command's outcome, read off the world it leaves. *)
Lemma settle_facts w g out n tr :
  let w' := settle w g out n tr in
  state w' !! pretty g = Some (out_record out)
  ∧ admins_of (state w') g = adminIDs (out_record out)
  ∧ targets_of (state w') g = targetIDs (out_record out)
  ∧ message_of (state w') g = message (out_record out)
  ∧ pending_confirmations w' = out_pending out
  ∧ clock_reads w' = out_reads out
  ∧ trace w' = trace w ++ tr
  ∧ ∀ k, k ≠ pretty g -> state w' !! k = state w !! k.
Proof.
  unfold settle, admins_of, targets_of, message_of. simpl. rewrite lookup_insert_eq.
  repeat split. intros k Hk. by rewrite lookup_insert_ne.
Qed.

Lemma heal_heal (o : Z) (l : list Z) : heal o (heal o l) = heal o l.
Proof.
  unfold heal at 1. destruct (py_in o (heal o l)) eqn:E; [done|].
  unfold heal in E. destruct (py_in o l) eqn:E'; [congruence|].
  rewrite py_in_app in E. simpl in E. by rewrite Z.eqb_refl, orb_true_r in E.
Qed.

Lemma heal_prefix (o : Z) (l : list Z) : l `prefix_of` heal o l.
Proof. unfold heal. destruct (py_in o l); [done|]. by apply prefix_app_r. Qed.

Lemma heal_owner (o : Z) (l : list Z) : o ∈ heal o l.
Proof.
  unfold heal. destruct (py_in o l) eqn:E; [by apply py_in_spec|].
  apply elem_of_app. right. by apply list_elem_of_singleton.
Qed.

Lemma count_occ_heal (o : Z) (l : list Z) :
  (count_occ Z.eq_dec l o <= 1)%nat -> count_occ Z.eq_dec (heal o l) o = 1%nat.
Proof.
  intros Hle. unfold heal. destruct (py_in o l) eqn:E.
  - apply py_in_spec, list_elem_of_In in E.
    apply (count_occ_In Z.eq_dec) in E. lia.
  - apply py_in_false in E. rewrite count_occ_app. simpl.
    destruct (Z.eq_dec o o); [|done].
    assert (count_occ Z.eq_dec l o = 0%nat) as ->; [|done].
    apply count_occ_not_In. by rewrite <- list_elem_of_In.
Qed.

Lemma after_auth_prefix (x o : Z) (l : list Z) : l `prefix_of` after_auth x o l.
Proof. unfold after_auth. destruct (x =? o); [done|apply heal_prefix]. Qed.

Lemma py_in_after_auth (x o t : Z) (l : list Z) :
  py_in t l = true -> py_in t (after_auth x o l) = true.
Proof.
  intros H. apply py_in_spec. apply py_in_spec in H.
  destruct (after_auth_prefix x o l) as [k ->]. apply elem_of_app. by left.
Qed.

(** ** The persistence layer's read side *)

(** C8.  Load never fails.  Whatever the backing store does, [load_state]
    returns a document and raises nothing: the parsed document when the
    file exists, opens and parses, and the empty document in every other
    case (no file, an exception on opening or reading, an exception of
    the parser, of whatever class). *)
Theorem load_state_never_fails (f : StateFile) :
  load_state f
  = Ok (if file_exists f then
          match open_read f with
          | Some _ => ∅
          | None => match json_load f with Ok data => data | Raise _ => ∅ end
          end
        else ∅).
Proof.
  unfold load_state, load_state_body.
  destruct (file_exists f); [|done].
  destruct (open_read f) as [e|]; [by destruct (exc_class e)|].
  destruct (json_load f) as [data|e]; [done|by destruct (exc_class e)].
Qed.

(** ** The confirmation window *)

(** C3.  Confirmation check semantics.  With [now] the clock reading the
    check takes: the check answers true exactly when the map holds an
    entry for the key whose age [now - t] is at most 60 (so also at
    exactly 60); an entry older than 60 is deleted by the check, which
    answers false; without an entry the check answers false and leaves
    the world as it was. *)
Theorem check_confirmation_window env g u w :
  let key := confirmation_key g u in
  let pc := pending_confirmations w in
  let current_time := clock env (clock_reads w) in
  (fst (check_confirmation env g u w) = Ok true
   <-> ∃ t, pc !! key = Some t ∧ (current_time - t <= 60)%Q)
  ∧ (∀ t, pc !! key = Some t -> (current_time - t == 60)%Q ->
       fst (check_confirmation env g u w) = Ok true)
  ∧ (∀ t, pc !! key = Some t -> (60 < current_time - t)%Q ->
       check_confirmation env g u w
       = (Ok false, mkWorld (state w) (delete key pc) (S (clock_reads w))
                      (write_attempts w) (trace w)))
  ∧ (pc !! key = None -> check_confirmation env g u w = (Ok false, w)).
Proof.
  intros key pc current_time.
  rewrite check_confirmation_run. unfold check_pure. fold key pc current_time.
  destruct (pc !! key) as [t|] eqn:E.
  - destruct (Qle_bool (current_time - t) 60) eqn:Hle; simpl.
    + apply Qle_bool_iff in Hle.
      split; [split; [intros _; by exists t | done]|].
      split; [done|]. split; [|done].
      intros t' [= <-] Hlt. exfalso. by apply (Qlt_not_le _ _ Hlt).
    + assert (Hnle : ¬ (current_time - t <= 60)%Q).
      { intros H. apply Qle_bool_iff in H. congruence. }
      split; [split; [done | by intros (t' & [= <-] & H)]|].
      split; [|split; [by intros t' [= <-] _ | done]].
      intros t' [= <-] Heq. exfalso. apply Hnle. rewrite Heq. apply Qle_refl.
  - simpl. split; [split; [done | by intros (t & ? & _)]|].
    split; [done|]. split; [done|]. intros _. by destruct w.
Qed.

(** ** The accessor *)

Section AccessorFacts.

Variable env : Env.

Lemma accessor_op_state g o w :
  state (snd (run_op env (OpAccessor g o) w))
  = <[pretty g := healed_record o (state w !! pretty g)]> (state w).
Proof.
  simpl. unfold bind. by destruct (get_guild_state_run env g o w) as (n & tr & -> & _).
Qed.

Lemma accessor_op_admins g o w :
  admins_of (state (snd (run_op env (OpAccessor g (Some o)) w))) g
  = heal o (admins_of (state w) g).
Proof.
  rewrite accessor_op_state. unfold admins_of at 1. rewrite lookup_insert_eq.
  apply adminIDs_healed.
Qed.

Lemma accessor_op_targets g o w :
  targets_of (state (snd (run_op env (OpAccessor g o) w))) g = targets_of (state w) g.
Proof.
  rewrite accessor_op_state. unfold targets_of at 1. rewrite lookup_insert_eq.
  apply targetIDs_healed.
Qed.

Lemma accessor_repeat g o n w :
  let w' := run_ops env (replicate (S n) (OpAccessor g (Some o))) w in
  admins_of (state w') g = heal o (admins_of (state w) g)
  ∧ targets_of (state w') g = targets_of (state w) g.
Proof.
  revert w. induction n as [|n IH]; intros w.
  - simpl run_ops. split; [apply accessor_op_admins | apply accessor_op_targets].
  - change (replicate (S (S n)) ?op) with (op :: replicate (S n) op).
    cbn [run_ops]. destruct (IH (snd (run_op env (OpAccessor g (Some o)) w))) as [-> ->].
    rewrite accessor_op_admins, accessor_op_targets, heal_heal. done.
Qed.

(** C5.  Self-healing idempotence.  On a state whose admin list for the guild
    holds the owner at most once, any number [n >= 1] of calls of the
    accessor with the same guild and owner leaves an admin list that
    holds the owner exactly once; the list is the same for every [n]
    (the one the first call leaves), the list before is a prefix of it,
    so no entry is lost, and each call returns the guild's record. *)
Theorem accessor_self_healing_idempotent g o n w :
  (1 <= n)%nat ->
  (count_occ Z.eq_dec (admins_of (state w) g) o <= 1)%nat ->
  let w' := run_ops env (replicate n (OpAccessor g (Some o))) w in
  count_occ Z.eq_dec (admins_of (state w') g) o = 1%nat
  ∧ admins_of (state w') g = heal o (admins_of (state w) g)
  ∧ (admins_of (state w) g `prefix_of` admins_of (state w') g)
  ∧ targets_of (state w') g = targets_of (state w) g
  ∧ fst (get_guild_state env g (Some o) w') = Ok (pretty g).
Proof.
  intros Hn Hcount. destruct n as [|n]; [lia|].
  destruct (accessor_repeat g o n w) as [Ha Ht]. cbv zeta. rewrite Ha, Ht.
  split; [by apply count_occ_heal|]. split; [done|]. split; [apply heal_prefix|].
  split; [done|].
  match goal with |- context [get_guild_state env g (Some o) ?w1] =>
    by destruct (get_guild_state_run env g (Some o) w1) as (? & ? & -> & _) end.
Qed.

End AccessorFacts.

(** ** Auto-reply *)

(** C6.  Auto-reply gating, as the handler has it.  For every inbound
    message: nothing is evaluated (the world is left as it was) when the
    author is the bot's own user or the message has no guild; otherwise
    exactly one reply, carrying exactly the configured text, is asked for
    when the author is in the guild's targetIDs and the text is not
    empty, and none in every other case.  No response to a command is
    sent either way.  The author's bot flag plays no part. *)
Theorem on_message_gating env msg w :
  ∃ w' tr,
    on_message env msg w = (Ok tt, w') ∧ trace w' = trace w ++ tr
    ∧ responses tr = []
    ∧ replies tr
      = (if user_id (author msg) =? client_user env then []
         else match guild msg with
              | None => []
              | Some gd =>
                  if py_in (user_id (author msg)) (targets_of (state w) (id gd))
                     && negb (String.eqb (message_of (state w) (id gd)) "")
                  then [message_of (state w) (id gd)] else []
              end)
    ∧ ((user_id (author msg) =? client_user env) = true ∨ guild msg = None -> w' = w).
Proof.
  pose proof (on_message_run env msg w) as H.
  destruct (user_id (author msg) =? client_user env).
  { exists w, []. rewrite app_nil_r. done. }
  destruct (guild msg) as [gd|].
  2:{ exists w, []. rewrite app_nil_r. done. }
  cbv zeta in H. destruct H as (n & tr & -> & Hr & Hp).
  eexists _, tr. split; [done|]. split; [done|]. split; [done|].
  rewrite targetIDs_healed, message_healed in Hp. split; [exact Hp|].
  intros [?|?]; done.
Qed.


(** ** The admin command *)

Section AdminFacts.

Variable env : Env.

(** [/admin] in one statement: it ends normally, and the world it
    leaves is read off the outcome [gated ... admin_outcome]. *)
Lemma admin_command_summary i a u w :
  let g := guild_id i in
  let x := user_id (user i) in
  let o := guild_owner_id i in
  let out := gated x o (state w !! pretty g) (pending_confirmations w) (clock_reads w) None
               (fun gs => admin_outcome (clock env) g x o a u gs
                            (pending_confirmations w) (clock_reads w)) in
  ∃ w' tr,
    admin_command env i a u w = (Ok tt, w')
    ∧ trace w' = trace w ++ tr ∧ replies tr = []
    ∧ reported (out_verdict out) tr
    ∧ state w' !! pretty g = Some (out_record out)
    ∧ admins_of (state w') g = adminIDs (out_record out)
    ∧ targets_of (state w') g = targetIDs (out_record out)
    ∧ pending_confirmations w' = out_pending out
    ∧ clock_reads w' = out_reads out
    ∧ ∀ k, k ≠ pretty g -> state w' !! k = state w !! k.
Proof.
  intros g x o out.
  destruct (admin_command_run env i a u w) as (n & tr & Hrun & Hp & Hrep).
  fold g x o out in Hrun, Hrep.
  destruct (settle_facts w g out n tr) as (H1 & H2 & H3 & _ & H5 & H6 & H7 & H8).
  exists (settle w g out n tr), tr. done.
Qed.

(** C10.  The owner's first command in a fresh guild.  When the guild has no
    record, the bare accessor call of [/admin] creates it with an empty
    admin list; whatever [/admin] command the owner then issues, the
    owner id is not in adminIDs afterwards; and after the owner adds a
    user (not a bot, not the owner) the record is exactly
    [adminIDs = [user]], empty targets, empty message, the command
    ending with its success text or, when the save failed, with the
    failure text. *)
Theorem owner_first_admin_command g o bo a u w :
  state w !! pretty g = None ->
  let i := mkInteraction g (mkUser o bo) o in
  state (snd (get_guild_state env g None w)) !! pretty g = Some (mkGuildState [] [] "")
  ∧ ∃ w' tr,
      admin_command env i a u w = (Ok tt, w') ∧ trace w' = trace w ++ tr
      ∧ (o ∉ admins_of (state w') g)
      ∧ (a = Add -> bot u = false -> user_id u ≠ o ->
         state w' !! pretty g = Some (mkGuildState [user_id u] [] "")
         ∧ persisted (AddedAdmin (user_id u)) tr).
Proof.
  intros Hfresh i. split.
  { destruct (get_guild_state_run env g None w) as (n & tr & -> & _).
    simpl. rewrite lookup_insert_eq, Hfresh. done. }
  destruct (admin_command_summary i a u w)
    as (w' & tr & Hrun & Htr & _ & Hrep & Hrec & Hadm & _).
  exists w', tr. split; [done|]. split; [done|].
  revert Hrep Hrec Hadm. simpl. rewrite Hfresh.
  unfold gated, authorized, fetched. rewrite Z.eqb_refl. simpl.
  unfold admin_outcome. destruct a; simpl.
  - destruct (bot u); simpl.
    { intros _ _ ->. split; [apply not_elem_of_nil|done]. }
    destruct (Z.eqb_spec (user_id u) o) as [Heq|Hne]; simpl.
    { intros _ _ ->. split; [apply not_elem_of_nil|done]. }
    intros Hrep Hrec ->. split; [|done].
    intros Hin. apply list_elem_of_singleton in Hin. congruence.
  - destruct (user_id u =? o); simpl; intros _ _ ->;
      (split; [apply not_elem_of_nil|done]).
Qed.

(** C1.  Owner supremacy, as the code has it.  [is_admin] answers true for
    the owner, for every guild and every state (also one without a
    record for the guild), and leaves the world as it was.  An
    admin-remove command that targets the owner is always turned down:
    with the owner-removal text when the actor is authorized, with the
    permission text otherwise.  It removes nothing from adminIDs: the
    list afterwards is the list before, with the owner appended by the
    accessor when the actor is not the owner and the owner was missing;
    the confirmations are untouched. *)
Theorem owner_supremacy i b w :
  let g := guild_id i in
  let x := user_id (user i) in
  let o := guild_owner_id i in
  let l := admins_of (state w) g in
  is_admin env g o o w = (Ok true, w)
  ∧ ∃ w' tr,
      admin_command env i Remove (mkUser o b) w = (Ok tt, w')
      ∧ trace w' = trace w ++ tr
      ∧ responses tr = [if authorized x o l then CannotRemoveOwner else NoPermission]
      ∧ admins_of (state w') g = after_auth x o l
      ∧ (l `prefix_of` admins_of (state w') g)
      ∧ pending_confirmations w' = pending_confirmations w.
Proof.
  intros g x o l. split.
  { unfold is_admin. by rewrite Z.eqb_refl. }
  destruct (admin_command_summary i Remove (mkUser o b) w)
    as (w' & tr & Hrun & Htr & _ & Hrep & _ & Hadm & _ & Hpc & _).
  fold g x o in Hrep, Hadm, Hpc.
  exists w', tr. split; [done|]. split; [done|].
  revert Hrep Hadm Hpc. unfold gated. fold (admins_of (state w) g). fold l.
  assert (Hl : adminIDs (fetched x o None (state w !! pretty g)) = after_auth x o l)
    by apply adminIDs_fetched_None.
  destruct (authorized x o l); simpl.
  - rewrite Z.eqb_refl. simpl. intros Hrep -> ->. rewrite Hl.
    split; [done|]. split; [done|]. split; [apply after_auth_prefix|done].
  - intros Hrep -> ->. rewrite Hl.
    split; [done|]. split; [done|]. split; [apply after_auth_prefix|done].
Qed.



Lemma remove_first_NoDup (x : Z) (l : list Z) :
  NoDup l -> NoDup (remove_first x l) ∧ x ∉ remove_first x l.
Proof.
  intros Hnd. unfold remove_first. destruct (py_remove x l) as [l'|] eqn:E; simpl.
  - by eapply py_remove_NoDup.
  - split; [done|]. intros Hin. apply py_remove_in in Hin as [? ?]. congruence.
Qed.

(** A self-removal of a listed admin who is not the owner: confirmed, it
    removes; otherwise it records the clock reading it takes and
    prompts. *)
Lemma self_remove_run g x bx bu o w :
  let i := mkInteraction g (mkUser x bx) o in
  let key := confirmation_key g x in
  let l := admins_of (state w) g in
  x ≠ o -> x ∈ l ->
  ∃ w' tr,
    admin_command env i Remove (mkUser x bu) w = (Ok tt, w')
    ∧ trace w' = trace w ++ tr
    ∧ if confirmed_now env g x w then
        persisted SelfDemoted tr
        ∧ admins_of (state w') g = remove_first x (heal o l)
        ∧ pending_confirmations w' = delete key (pending_confirmations w)
      else
        responses tr = [ConfirmPrompt]
        ∧ admins_of (state w') g = heal o l
        ∧ pending_confirmations w'
          = <[key := clock env (prompt_reading g x w)]> (pending_confirmations w)
        ∧ clock_reads w' = S (prompt_reading g x w).
Proof.
  intros i key l Hne Hin.
  destruct (admin_command_summary i Remove (mkUser x bu) w)
    as (w' & tr & Hrun & Htr & _ & Hrep & _ & Hadm & _ & Hpc & Hclk & _).
  exists w', tr. split; [done|]. split; [done|].
  revert Hrep Hadm Hpc Hclk. cbn [guild_id user user_id guild_owner_id i].
  unfold gated. fold (admins_of (state w) g). fold l.
  assert (Hl : adminIDs (fetched x o None (state w !! pretty g)) = heal o l).
  { rewrite adminIDs_fetched_None. fold (admins_of (state w) g). unfold after_auth.
    apply Z.eqb_neq in Hne. by rewrite Hne. }
  set (gs := fetched x o None (state w !! pretty g)) in *.
  apply py_in_spec in Hin.
  unfold authorized. rewrite Hin, orb_true_r.
  unfold admin_outcome. cbn [user_id]. fold key.
  apply Z.eqb_neq in Hne as Hne'. rewrite Hne', Hl, py_in_heal, Hin, Z.eqb_refl by done.
  cbn [negb]. unfold check_pure, confirmed_now, prompt_reading. fold key.
  destruct (pending_confirmations w !! key) as [t|] eqn:E.
  - destruct (Qle_bool (clock env (clock_reads w) - t) 60); simpl.
    + intros Hrep -> -> _. done.
    + intros Hrep -> -> ->. rewrite ?Hl. split; [done|]. split; [done|].
      by rewrite insert_delete_eq.
  - simpl. intros Hrep -> -> ->. rewrite ?Hl. done.
Qed.

(** The removal of somebody else's admin status. *)
Lemma other_remove_run i u w :
  let g := guild_id i in
  let x := user_id (user i) in
  let o := guild_owner_id i in
  let l := admins_of (state w) g in
  user_id u ≠ x -> user_id u ≠ o -> user_id u ∈ l -> authorized x o l = true ->
  ∃ w' tr,
    admin_command env i Remove u w = (Ok tt, w')
    ∧ trace w' = trace w ++ tr
    ∧ persisted (RemovedAdmin (user_id u)) tr
    ∧ admins_of (state w') g = remove_first (user_id u) (after_auth x o l)
    ∧ pending_confirmations w' = pending_confirmations w
    ∧ clock_reads w' = clock_reads w.
Proof.
  intros g x o l Hnx Hno Hin Hauth.
  destruct (admin_command_summary i Remove u w)
    as (w' & tr & Hrun & Htr & _ & Hrep & _ & Hadm & _ & Hpc & Hclk & _).
  exists w', tr. split; [done|]. split; [done|].
  revert Hrep Hadm Hpc Hclk. fold g x o.
  unfold gated. fold (admins_of (state w) g). fold l. rewrite Hauth.
  assert (Hl : adminIDs (fetched x o None (state w !! pretty g)) = after_auth x o l)
    by apply adminIDs_fetched_None.
  set (gs := fetched x o None (state w !! pretty g)) in *.
  unfold admin_outcome.
  apply Z.eqb_neq in Hnx, Hno. rewrite Hno, Hnx, Hl.
  apply py_in_spec in Hin. rewrite (py_in_after_auth x o _ l Hin). cbn [negb].
  simpl. intros Hrep -> -> ->. rewrite ?Hl. done.
Qed.

(** C2.  Self-demotion protocol, as the code has it.  For an admin-remove
    command whose target is the actor, the actor being in the admin list
    and not the owner: without a valid pending confirmation the command
    prompts, records as pending confirmation the clock reading it takes
    (the reading after the check's, when the check found an expired
    entry) and removes nothing (the list becomes the one the permission
    check leaves, that is the list before with the owner appended when
    missing).  The same command again reads the clock once more: when
    that reading is at most 60 seconds after the recorded one, it
    removes the actor's first occurrence from the list (the only one
    when the list has no duplicates) and deletes the pending entry; when
    it is later, it removes nothing and prompts again, recording a new
    reading.  A removal whose target is neither the actor nor the owner,
    is in the list, and is asked for by an authorized actor, happens at
    once: no clock reading, no change of the confirmations. *)
Theorem self_demotion_protocol g x bx o w :
  let i := mkInteraction g (mkUser x bx) o in
  let key := confirmation_key g x in
  let l := admins_of (state w) g in
  let n := prompt_reading g x w in
  let t_req := clock env n in
  let t_again := clock env (S n) in
  (∀ bu, x ≠ o -> x ∈ l -> confirmed_now env g x w = false ->
     ∃ w1 tr1,
       admin_command env i Remove (mkUser x bu) w = (Ok tt, w1)
       ∧ trace w1 = trace w ++ tr1
       ∧ responses tr1 = [ConfirmPrompt]
       ∧ admins_of (state w1) g = heal o l
       ∧ pending_confirmations w1 = <[key := t_req]> (pending_confirmations w)
       ∧ clock_reads w1 = S n
       ∧ ∃ w2 tr2,
           admin_command env i Remove (mkUser x bu) w1 = (Ok tt, w2)
           ∧ trace w2 = trace w1 ++ tr2
           ∧ ((t_again - t_req <= 60)%Q ->
              persisted SelfDemoted tr2
              ∧ admins_of (state w2) g = remove_first x (heal o l)
              ∧ (NoDup l -> x ∉ admins_of (state w2) g)
              ∧ pending_confirmations w2 = delete key (pending_confirmations w)
              ∧ pending_confirmations w2 !! key = None)
           ∧ ((60 < t_again - t_req)%Q ->
              responses tr2 = [ConfirmPrompt]
              ∧ admins_of (state w2) g = heal o l
              ∧ pending_confirmations w2
                = <[key := clock env (S (S n))]> (pending_confirmations w)))
  ∧ (∀ u, user_id u ≠ x -> user_id u ≠ o -> user_id u ∈ l -> authorized x o l = true ->
     ∃ w' tr,
       admin_command env i Remove u w = (Ok tt, w')
       ∧ trace w' = trace w ++ tr
       ∧ persisted (RemovedAdmin (user_id u)) tr
       ∧ admins_of (state w') g = remove_first (user_id u) (after_auth x o l)
       ∧ (NoDup l -> user_id u ∉ admins_of (state w') g)
       ∧ pending_confirmations w' = pending_confirmations w
       ∧ clock_reads w' = clock_reads w).
Proof.
  intros i key l n t_req t_again. split.
  - intros bu Hne Hin Hnot.
    destruct (self_remove_run g x bx bu o w Hne Hin) as (w1 & tr1 & Hrun1 & Htr1 & H1).
    rewrite Hnot in H1. destruct H1 as (Hr1 & Ha1 & Hpc1 & Hclk1).
    exists w1, tr1. fold i in Hrun1. fold key n t_req in Hpc1. fold l in Ha1. fold n in Hclk1.
    do 6 (split; [done|]).
    assert (Hin1 : x ∈ admins_of (state w1) g).
    { rewrite Ha1. destruct (heal_prefix o l) as [k ->]. apply elem_of_app. by left. }
    destruct (self_remove_run g x bx bu o w1 Hne Hin1) as (w2 & tr2 & Hrun2 & Htr2 & H2).
    exists w2, tr2. fold i in Hrun2. do 2 (split; [done|]).
    assert (Hconf : confirmed_now env g x w1 = Qle_bool (t_again - t_req) 60).
    { unfold confirmed_now. fold key. by rewrite Hpc1, lookup_insert_eq, Hclk1. }
    assert (Hnext : prompt_reading g x w1 = S (S n)).
    { unfold prompt_reading. fold key. by rewrite Hpc1, lookup_insert_eq, Hclk1. }
    rewrite Hconf, Hnext in H2. fold key in H2. rewrite Ha1, heal_heal, Hpc1 in H2. split.
    + intros Hwin. apply Qle_bool_iff in Hwin. rewrite Hwin in H2.
      destruct H2 as (Hp2 & Ha2 & Hpc2). rewrite delete_insert_eq in Hpc2.
      split; [done|]. split; [done|]. split; [|split; [done|]].
      * intros Hnd. rewrite Ha2. by apply remove_first_NoDup, heal_NoDup.
      * rewrite Hpc2. apply lookup_delete_eq.
    + intros Hlate.
      assert (Qle_bool (t_again - t_req) 60 = false) as Hno.
      { destruct (Qle_bool (t_again - t_req) 60) eqn:Hle; [|done].
        apply Qle_bool_iff in Hle. exfalso. by apply (Qlt_not_le _ _ Hlate). }
      rewrite Hno in H2. destruct H2 as (Hr2 & Ha2 & Hpc2 & _).
      rewrite insert_insert_eq in Hpc2. done.
  - intros u Hnx Hno Hin Hauth.
    destruct (other_remove_run i u w Hnx Hno Hin Hauth)
      as (w' & tr & Hrun & Htr & Hp & Ha & Hpc & Hclk).
    exists w', tr. do 4 (split; [done|]). split; [|done].
    intros Hnd. cbn [guild_id i] in Ha. rewrite Ha. apply remove_first_NoDup.
    unfold after_auth. destruct (_ =? _); [done|by apply heal_NoDup].
Qed.


End AdminFacts.

(** ** Mutating commands *)

Section MutatingFacts.

Variable env : Env.

(** Every mutating command ends normally and leaves the world its
    outcome describes. *)
Lemma run_mutating_summary i m w :
  let g := guild_id i in
  let out := outcome_of env i m w in
  ∃ w' tr,
    run_mutating env i m w = (Ok tt, w')
    ∧ trace w' = trace w ++ tr ∧ replies tr = []
    ∧ reported (out_verdict out) tr
    ∧ state w' !! pretty g = Some (out_record out)
    ∧ admins_of (state w') g = adminIDs (out_record out)
    ∧ targets_of (state w') g = targetIDs (out_record out)
    ∧ message_of (state w') g = message (out_record out)
    ∧ pending_confirmations w' = out_pending out
    ∧ ∀ k, k ≠ pretty g -> state w' !! k = state w !! k.
Proof.
  intros g out.
  assert (∃ n tr, run_mutating env i m w = (Ok tt, settle w g out n tr)
                  ∧ replies tr = [] ∧ reported (out_verdict out) tr)
    as (n & tr & Hrun & Hp & Hrep).
  { destruct m as [a u|a u|text]; simpl.
    - apply admin_command_run.
    - apply target_command_run.
    - apply setmessage_command_run. }
  destruct (settle_facts w g out n tr) as (H1 & H2 & H3 & H4 & H5 & H6 & H7 & H8).
  exists (settle w g out n tr), tr. done.
Qed.

Lemma healed_record_ok o rec :
  (∀ gs, rec = Some gs -> record_ok gs) -> record_ok (healed_record o rec).
Proof.
  intros H. destruct rec as [gs|]; simpl.
  - destruct (H gs eq_refl) as [Ha Ht]. destruct o as [o|]; [|done].
    pose proof (heal_NoDup o _ Ha) as Hh. unfold heal in Hh.
    destruct (py_in o (adminIDs gs)); done.
  - split; [|apply NoDup_nil_2]. destruct o; [apply NoDup_singleton | apply NoDup_nil_2].
Qed.

Lemma fetched_ok x o fo rec :
  (∀ gs, rec = Some gs -> record_ok gs) -> record_ok (fetched x o fo rec).
Proof.
  intros H. unfold fetched. apply healed_record_ok. destruct (x =? o); [done|].
  intros gs [= <-]. by apply healed_record_ok.
Qed.

Lemma append_NoDup (t : Z) (l : list Z) : py_in t l = false -> NoDup l -> NoDup (l ++ [t]).
Proof.
  intros Hin Hnd. apply py_in_false in Hin. apply NoDup_app. split; [done|]. split.
  - intros y Hy Hyt. apply list_elem_of_singleton in Hyt. by subst.
  - apply NoDup_singleton.
Qed.

Lemma admin_outcome_ok clk g x o a u gs pc reads :
  record_ok gs -> record_ok (out_record (admin_outcome clk g x o a u gs pc reads)).
Proof.
  intros [Ha Ht]. unfold admin_outcome. destruct a.
  - destruct (bot u); [done|].
    destruct (py_in (user_id u) (adminIDs gs)) eqn:Hin; simpl; [done|].
    destruct (user_id u =? o); [done|]. split; [|done]. by apply append_NoDup.
  - destruct (user_id u =? o); [done|].
    destruct (py_in (user_id u) (adminIDs gs)); simpl; [|done].
    destruct (user_id u =? x).
    + destruct (check_pure _ _ _ _) as [[[|] pc1] reads1]; [|done].
      split; [|done]. by apply remove_first_NoDup.
    + split; [|done]. by apply remove_first_NoDup.
Qed.

Lemma target_outcome_ok a u gs pc reads :
  record_ok gs -> record_ok (out_record (target_outcome a u gs pc reads)).
Proof.
  intros [Ha Ht]. unfold target_outcome. destruct a.
  - destruct (bot u); [done|].
    destruct (py_in (user_id u) (targetIDs gs)) eqn:Hin; [done|].
    split; [done|]. by apply append_NoDup.
  - destruct (py_in (user_id u) (targetIDs gs)); simpl; [|done].
    split; [done|]. by apply remove_first_NoDup.
Qed.

Lemma outcome_of_ok i m w :
  no_duplicates (state w) -> record_ok (out_record (outcome_of env i m w)).
Proof.
  intros Hnd. unfold outcome_of, gated.
  set (gs := fetched _ _ _ _).
  assert (Hgs : record_ok gs) by (apply fetched_ok; intros r Hr; by eapply Hnd).
  destruct (authorized _ _ _); [|done].
  destruct m as [a u|a u|text]; [by apply admin_outcome_ok | by apply target_outcome_ok | done].
Qed.

Lemma no_duplicates_insert (st : State) k gs :
  no_duplicates st -> record_ok gs -> no_duplicates (<[k := gs]> st).
Proof.
  intros Hnd Hgs k' gs' Hlook. destruct (decide (k = k')) as [<-|Hne].
  - rewrite lookup_insert_eq in Hlook. by injection Hlook as <-.
  - rewrite lookup_insert_ne in Hlook by done. by eapply Hnd.
Qed.

Lemma no_duplicates_healed (st : State) (g : Z) o :
  no_duplicates st ->
  no_duplicates (<[pretty g := healed_record o (st !! pretty g)]> st).
Proof.
  intros Hnd. apply no_duplicates_insert; [done|].
  apply healed_record_ok. intros gs Hgs. by eapply Hnd.
Qed.

(** One step of a run keeps I2. *)
Lemma run_op_no_duplicates op w :
  no_duplicates (state w) -> no_duplicates (state (snd (run_op env op w))).
Proof.
  intros Hnd.
  assert (Hmut : ∀ i m, no_duplicates (state (snd (run_mutating env i m w)))).
  { intros i m.
    destruct (run_mutating_summary i m w)
      as (w' & tr & -> & _ & _ & _ & Hrec & _ & _ & _ & _ & Hother).
    simpl. intros k gs Hlook. destruct (decide (k = pretty (guild_id i))) as [->|Hne].
    - rewrite Hrec in Hlook. injection Hlook as <-. by apply outcome_of_ok.
    - rewrite Hother in Hlook by done. by eapply Hnd. }
  destruct op as [i a u|i a u|i text|i|msg|g o].
  - apply (Hmut i (MutAdmin a u)).
  - apply (Hmut i (MutTarget a u)).
  - apply (Hmut i (MutSetMessage text)).
  - simpl. destruct (info_command_run env i w) as (n & tr & -> & _). simpl.
    by apply no_duplicates_healed.
  - simpl. pose proof (on_message_run env msg w) as H.
    destruct (user_id (author msg) =? client_user env); [by rewrite H|].
    destruct (guild msg) as [gd|]; [|by rewrite H].
    destruct H as (n & tr & -> & _). simpl. by apply no_duplicates_healed.
  - rewrite accessor_op_state. by apply no_duplicates_healed.
Qed.

Lemma run_ops_no_duplicates ops w :
  no_duplicates (state w) -> no_duplicates (state (run_ops env ops w)).
Proof.
  revert w. induction ops as [|op ops IH]; intros w Hnd; [done|].
  simpl. apply IH. by apply run_op_no_duplicates.
Qed.

(** An accepted command commits: its verdict is its success text, and
    its record carries the mutation. *)
Lemma accepted_outcome i m w :
  accepted env i m w = true ->
  let g := guild_id i in
  let x := user_id (user i) in
  let o := guild_owner_id i in
  let out := outcome_of env i m w in
  let admins := after_auth x o (admins_of (state w) g) in
  let targets := targets_of (state w) g in
  out_verdict out = Committed (success m x)
  ∧ match m with
    | MutAdmin Add u => adminIDs (out_record out) = admins ++ [user_id u]
    | MutAdmin Remove u => adminIDs (out_record out) = remove_first (user_id u) admins
    | MutTarget Add u => targetIDs (out_record out) = targets ++ [user_id u]
    | MutTarget Remove u => targetIDs (out_record out) = remove_first (user_id u) targets
    | MutSetMessage text => message (out_record out) = text
    end.
Proof.
  intros Hacc g x o out admins targets. subst out. revert Hacc.
  unfold accepted, outcome_of, gated. fold g x o. fold (admins_of (state w) g).
  fold admins. fold targets.
  destruct (authorized x o (admins_of (state w) g)); [|done]. rewrite andb_true_l.
  destruct m as [[|] u|[|] u|text].
  - assert (Hl : adminIDs (fetched x o None (state w !! pretty g)) = admins)
      by apply adminIDs_fetched_None.
    unfold admin_outcome. rewrite Hl.
    destruct (bot u); [done|].
    destruct (py_in (user_id u) admins || (user_id u =? o)); [done|].
    intros _. simpl. by rewrite ?Hl.
  - assert (Hl : adminIDs (fetched x o None (state w !! pretty g)) = admins)
      by apply adminIDs_fetched_None.
    unfold admin_outcome. rewrite Hl.
    destruct (user_id u =? o); [done|].
    destruct (py_in (user_id u) admins); [|done]. cbn [negb andb].
    unfold success. destruct (user_id u =? x) eqn:Hself.
    + apply Z.eqb_eq in Hself. unfold confirmed_now, check_pure.
      destruct (pending_confirmations w !! confirmation_key g x) as [t|]; [|done].
      intros ->. done.
    + done.
  - assert (Hl : targetIDs (fetched x o (Some o) (state w !! pretty g)) = targets)
      by apply targetIDs_fetched.
    unfold target_outcome. rewrite Hl.
    destruct (bot u); [by simpl|]. destruct (py_in (user_id u) targets); [by simpl|].
    intros _. simpl. by rewrite ?Hl.
  - assert (Hl : targetIDs (fetched x o (Some o) (state w !! pretty g)) = targets)
      by apply targetIDs_fetched.
    unfold target_outcome. rewrite Hl. intros ->. simpl. by rewrite ?Hl.
  - done.
Qed.

(** C9.  Persist failure is surfaced and not rolled back.  For every
    mutating command that passes the permission check and its validation
    (admin add, admin remove of another admin, confirmed self-demotion,
    target add, target remove, set-message): the command ends normally
    with its mutation applied to the in-memory document, and with
    exactly one response, which is the success text after a write
    attempt that went through and the failure text [SaveFailed] after
    three failed attempts in a row.  So when the persistence step fails
    (the command's last write attempt failed) the actor gets
    [SaveFailed], not the success text, and the mutation stays. *)
Theorem persist_failure_surfaced i m w :
  accepted env i m w = true ->
  ∃ w' tr,
    run_mutating env i m w = (Ok tt, w')
    ∧ trace w' = trace w ++ tr
    ∧ mutation_applied i m (state w) (state w')
    ∧ persisted (success m (user_id (user i))) tr
    ∧ (∀ e, last (writes tr) = Some (Some e) ->
         responses tr = [SaveFailed]
         ∧ responses tr ≠ [success m (user_id (user i))]
         ∧ ∃ pre e1 e2 e3, writes tr = pre ++ [Some e1; Some e2; Some e3]).
Proof.
  intros Hacc.
  destruct (accepted_outcome i m w Hacc) as [Hver Hrec].
  destruct (run_mutating_summary i m w)
    as (w' & tr & Hrun & Htr & _ & Hrep & _ & Hadm & Htgt & Hmsg & _).
  rewrite Hver in Hrep. simpl in Hrep.
  exists w', tr. split; [done|]. split; [done|]. split.
  { unfold mutation_applied. destruct m as [[|] u|[|] u|text]; congruence. }
  split; [done|].
  intros e Hlast. destruct Hrep as [[_ Hok] | [Hfail Hthree]]; [congruence|].
  split; [done|]. split; [|done]. rewrite Hfail.
  destruct m as [[|] u|[|] u|text]; simpl; try done.
  by destruct (user_id u =? user_id (user i)).
Qed.

(** C4.  No duplicate membership (I2), as the code has it.  From a document
    where every guild's adminIDs and targetIDs hold each id at most
    once, every run of commands, chat messages and accessor calls leaves
    such a document.  An admin-add of a user who is already in adminIDs,
    or is the owner, is turned down without appending the user: adminIDs
    is then what the permission check left (the list before, with the
    owner appended when the actor is not the owner and the owner was
    missing), and targetIDs is as it was.  A target-add of a user
    already in targetIDs is turned down and leaves targetIDs as it was;
    adminIDs is then the list before with the owner appended when
    missing, whoever the actor (by the permission check for another
    actor, by the command's own accessor call for the owner). *)
Theorem no_duplicate_membership :
  (∀ ops w, no_duplicates (state w) -> no_duplicates (state (run_ops env ops w)))
  ∧ (∀ i u w,
       let g := guild_id i in
       let x := user_id (user i) in
       let o := guild_owner_id i in
       let l := admins_of (state w) g in
       user_id u ∈ l ∨ user_id u = o ->
       ∃ w' tr,
         admin_command env i Add u w = (Ok tt, w')
         ∧ trace w' = trace w ++ tr
         ∧ responses tr = [if negb (authorized x o l) then NoPermission
                           else if bot u then CannotAddBotAdmin
                           else AlreadyAdmin (user_id u)]
         ∧ admins_of (state w') g = after_auth x o l
         ∧ targets_of (state w') g = targets_of (state w) g)
  ∧ (∀ i u w,
       let g := guild_id i in
       let x := user_id (user i) in
       let o := guild_owner_id i in
       user_id u ∈ targets_of (state w) g ->
       ∃ w' tr,
         target_command env i Add u w = (Ok tt, w')
         ∧ trace w' = trace w ++ tr
         ∧ responses tr = [if negb (authorized x o (admins_of (state w) g)) then NoPermission
                           else if bot u then CannotAddBotTarget
                           else AlreadyTarget (user_id u)]
         ∧ targets_of (state w') g = targets_of (state w) g
         ∧ admins_of (state w') g = heal o (admins_of (state w) g)).
Proof.
  split; [apply run_ops_no_duplicates|]. split.
  - intros i u w g x o l Hmem.
    destruct (run_mutating_summary i (MutAdmin Add u) w)
      as (w' & tr & Hrun & Htr & _ & Hrep & _ & Hadm & Htgt & _).
    exists w', tr. split; [done|]. split; [done|].
    revert Hrep Hadm Htgt. unfold outcome_of, gated. fold g x o.
    fold (admins_of (state w) g). fold l.
    assert (Hl : adminIDs (fetched x o None (state w !! pretty g)) = after_auth x o l)
      by apply adminIDs_fetched_None.
    assert (Ht : targetIDs (fetched x o None (state w !! pretty g)) = targets_of (state w) g)
      by apply targetIDs_fetched.
    destruct (authorized x o l); simpl.
    2:{ by intros -> -> ->. }
    assert (Hdup : py_in (user_id u) (after_auth x o l) || (user_id u =? o) = true).
    { destruct Hmem as [Hin| ->]; [|by rewrite Z.eqb_refl, orb_true_r].
      apply py_in_spec in Hin. by rewrite (py_in_after_auth x o _ l Hin). }
    rewrite Hl, Hdup. destruct (bot u); simpl; by intros -> -> ->.
  - intros i u w g x o Hmem.
    destruct (run_mutating_summary i (MutTarget Add u) w)
      as (w' & tr & Hrun & Htr & _ & Hrep & _ & Hadm & Htgt & _).
    exists w', tr. split; [done|]. split; [done|].
    revert Hrep Hadm Htgt. unfold outcome_of, gated. fold g x o.
    assert (Ha : adminIDs (fetched x o (Some o) (state w !! pretty g))
                 = heal o (admins_of (state w) g)) by apply adminIDs_fetched_Some.
    fold (admins_of (state w) g).
    assert (Ht : targetIDs (fetched x o (Some o) (state w !! pretty g))
                 = targets_of (state w) g) by apply targetIDs_fetched.
    destruct (authorized x o _); simpl.
    2:{ by intros -> -> ->. }
    apply py_in_spec in Hmem. rewrite Ht, Hmem.
    destruct (bot u); simpl; by intros -> -> ->.
Qed.

End MutatingFacts.

(** ** Concrete runs *)

(** A rejected admin-add is not always "without modifying the list":
    it does modify adminIDs when the permission check of a non-owner
    admin appends the missing owner. *)
Lemma rejected_admin_add_modifies_adminIDs :
  let env := calm_env 0 100 in
  let w := mkWorld {[ "1" := mkGuildState [5; 6] [] "" ]} ∅ 0 0 [] in
  let w' := snd (admin_command env (mkInteraction 1 (mkUser 5 false) 9) Add
                   (mkUser 6 false) w) in
  responses (trace w') = [AlreadyAdmin 6]
  ∧ admins_of (state w) 1 = [5; 6]
  ∧ admins_of (state w') 1 = [5; 6; 9].
Proof. vm_compute. done. Qed.

(** "No mutation to adminIDs" does not hold of a rejected removal of
    the owner: the permission check of a non-owner admin goes through
    the accessor, which appends the missing owner before the removal is
    turned down. *)
Lemma remove_owner_mutates_adminIDs :
  let env := calm_env 0 100 in
  let w := mkWorld {[ "1" := mkGuildState [5] [] "" ]} ∅ 0 0 [] in
  let w' := snd (admin_command env (mkInteraction 1 (mkUser 5 false) 9) Remove
                   (mkUser 9 false) w) in
  responses (trace w') = [CannotRemoveOwner]
  ∧ admins_of (state w) 1 = [5]
  ∧ admins_of (state w') 1 = [5; 9].
Proof. vm_compute. done. Qed.

(** Two runs where the first step of a self-removal is not "record a
    confirmation, leave adminIDs alone".  An owner who is in the admin
    list and targets themself is turned down and no confirmation is
    recorded; and the first invocation of a listed admin changes
    adminIDs when the owner is missing from it. *)
Lemma self_demotion_first_step_differs :
  let env := calm_env 0 100 in
  let w_owner := mkWorld {[ "1" := mkGuildState [9] [] "" ]} ∅ 0 0 [] in
  let w_owner' := snd (admin_command env (mkInteraction 1 (mkUser 9 false) 9) Remove
                         (mkUser 9 false) w_owner) in
  let w := mkWorld {[ "1" := mkGuildState [5] [] "" ]} ∅ 0 0 [] in
  let w' := snd (admin_command env (mkInteraction 1 (mkUser 5 false) 9) Remove
                   (mkUser 5 false) w) in
  (responses (trace w_owner') = [CannotRemoveOwner]
   ∧ pending_confirmations w_owner' !! confirmation_key 1 9 = None)
  ∧ (responses (trace w') = [ConfirmPrompt]
     ∧ admins_of (state w) 1 = [5]
     ∧ admins_of (state w') 1 = [5; 9]).
Proof. vm_compute. done. Qed.

(** "Never evaluated for a message from a bot" does not hold: the
    handler tests only whether the author is the bot's own user, so a
    message of another bot whose id is in targetIDs is evaluated and
    answered. *)
Lemma on_message_answers_other_bot :
  let env := calm_env 0 100 in
  let w := mkWorld {[ "1" := mkGuildState [] [7] "Hello" ]} ∅ 0 0 [] in
  let msg := mkMessage (mkUser 7 true) (Some (mkGuild 1 9)) in
  bot (author msg) = true
  ∧ replies (trace (snd (on_message env msg w))) = ["Hello"]
  ∧ admins_of (state (snd (on_message env msg w))) 1 = [9].
Proof. vm_compute. done. Qed.

(** The accessor called three times for guild 1 under owner 9, on a
    record whose admin list is [[5]]. *)
Lemma accessor_self_healing_idempotent_witness :
  let env := calm_env 0 100 in
  let w := mkWorld {[ "1" := mkGuildState [5] [] "" ]} ∅ 0 0 [] in
  let w' := run_ops env (replicate 3 (OpAccessor 1 (Some 9))) w in
  count_occ Z.eq_dec (admins_of (state w') 1) 9 = 1%nat
  ∧ admins_of (state w') 1 = heal 9 (admins_of (state w) 1)
  ∧ (admins_of (state w) 1 `prefix_of` admins_of (state w') 1)
  ∧ targets_of (state w') 1 = targets_of (state w) 1
  ∧ fst (get_guild_state env 1 (Some 9) w') = Ok (pretty 1).
Proof.
  intros env w.
  apply (accessor_self_healing_idempotent env 1 9 3 w); [lia | vm_compute; lia].
Defined.

(** The owner 9 adds user 5 as the first command in guild 1. *)
Lemma owner_first_admin_command_witness :
  let env := calm_env 0 100 in
  let i := mkInteraction 1 (mkUser 9 false) 9 in
  let u := mkUser 5 false in
  state (snd (get_guild_state env 1 None empty_world)) !! pretty 1
  = Some (mkGuildState [] [] "")
  ∧ ∃ w' tr,
      admin_command env i Add u empty_world = (Ok tt, w')
      ∧ trace w' = trace empty_world ++ tr
      ∧ (9 ∉ admins_of (state w') 1)
      ∧ (Add = Add -> bot u = false -> user_id u ≠ 9 ->
         state w' !! pretty 1 = Some (mkGuildState [user_id u] [] "")
         ∧ persisted (AddedAdmin (user_id u)) tr).
Proof.
  intros env i u.
  apply (owner_first_admin_command env 1 9 false Add u empty_world). reflexivity.
Defined.

(** The owner 9 adds user 5 in guild 1 while the disk is broken: the
    command is accepted, so the theorem applies. *)
Lemma persist_failure_surfaced_witness :
  let i := mkInteraction 1 (mkUser 9 false) 9 in
  let m := MutAdmin Add (mkUser 5 false) in
  accepted broken_disk_env i m empty_world = true
  ∧ ∃ w' tr,
      run_mutating broken_disk_env i m empty_world = (Ok tt, w')
      ∧ trace w' = trace empty_world ++ tr
      ∧ mutation_applied i m (state empty_world) (state w')
      ∧ persisted (success m (user_id (user i))) tr
      ∧ (∀ e, last (writes tr) = Some (Some e) ->
           responses tr = [SaveFailed]
           ∧ responses tr ≠ [success m (user_id (user i))]
           ∧ ∃ pre e1 e2 e3, writes tr = pre ++ [Some e1; Some e2; Some e3]).
Proof.
  intros i m. split; [vm_compute; reflexivity|].
  apply (persist_failure_surfaced broken_disk_env i m empty_world). vm_compute. reflexivity.
Defined.

(** What that run looks like: three failed writes half a second apart,
    the failure text, and user 5 in the list all the same. *)
Example broken_disk_admin_add :
  let i := mkInteraction 1 (mkUser 9 false) 9 in
  let w' := snd (admin_command broken_disk_env i Add (mkUser 5 false) empty_world) in
  responses (trace w') = [SaveFailed]
  ∧ sleeps (trace w') = [1 # 2; 1 # 2]
  ∧ length (writes (trace w')) = 3%nat
  ∧ admins_of (state w') 1 = [5].
Proof. vm_compute. done. Qed.

(** Admin 5 of guild 1 (owner 9) removes themself in two steps; the
    clock advances 5 seconds from one reading to the next. *)
Lemma self_demotion_protocol_witness :
  let env := mkEnv (fun n => inject_Z (5 * Z.of_nat n)) (fun _ => None) 100 in
  let w := mkWorld {[ "1" := mkGuildState [9; 5] [] "" ]} ∅ 0 0 [] in
  let i := mkInteraction 1 (mkUser 5 false) 9 in
  let key := confirmation_key 1 5 in
  let l := admins_of (state w) 1 in
  let n := prompt_reading 1 5 w in
  let t_req := clock env n in
  let t_again := clock env (S n) in
  (5 ≠ 9 ∧ 5 ∈ admins_of (state w) 1 ∧ confirmed_now env 1 5 w = false
   ∧ (t_again - t_req <= 60)%Q)
  ∧ ∃ w1 tr1,
      admin_command env i Remove (mkUser 5 false) w = (Ok tt, w1)
      ∧ trace w1 = trace w ++ tr1
      ∧ responses tr1 = [ConfirmPrompt]
      ∧ admins_of (state w1) 1 = heal 9 l
      ∧ pending_confirmations w1 = <[key := t_req]> (pending_confirmations w)
      ∧ clock_reads w1 = S n
      ∧ ∃ w2 tr2,
          admin_command env i Remove (mkUser 5 false) w1 = (Ok tt, w2)
          ∧ trace w2 = trace w1 ++ tr2
          ∧ ((t_again - t_req <= 60)%Q ->
             persisted SelfDemoted tr2
             ∧ admins_of (state w2) 1 = remove_first 5 (heal 9 l)
             ∧ (NoDup l -> 5 ∉ admins_of (state w2) 1)
             ∧ pending_confirmations w2 = delete key (pending_confirmations w)
             ∧ pending_confirmations w2 !! key = None)
          ∧ ((60 < t_again - t_req)%Q ->
             responses tr2 = [ConfirmPrompt]
             ∧ admins_of (state w2) 1 = heal 9 l
             ∧ pending_confirmations w2
               = <[key := clock env (S (S n))]> (pending_confirmations w)).
Proof.
  intros env w i key l n t_req t_again.
  assert (Hin : 5 ∈ admins_of (state w) 1) by (apply py_in_spec; vm_compute; reflexivity).
  assert (Hnot : confirmed_now env 1 5 w = false) by (vm_compute; reflexivity).
  assert (Hwin : (t_again - t_req <= 60)%Q) by (vm_compute; discriminate).
  split; [split; [lia | split; [exact Hin | split; [exact Hnot | exact Hwin]]]|].
  apply (proj1 (self_demotion_protocol env 1 5 false 9 w) false); [lia | exact Hin | exact Hnot].
Defined.

(** The two steps, run. *)
Example self_demotion_two_steps :
  let env := calm_env 0 100 in
  let w := mkWorld {[ "1" := mkGuildState [9; 5] [] "" ]} ∅ 0 0 [] in
  let i := mkInteraction 1 (mkUser 5 false) 9 in
  let w1 := snd (admin_command env i Remove (mkUser 5 false) w) in
  let w2 := snd (admin_command env i Remove (mkUser 5 false) w1) in
  responses (trace w2) = [ConfirmPrompt; SelfDemoted]
  ∧ admins_of (state w1) 1 = [9; 5]
  ∧ admins_of (state w2) 1 = [9]
  ∧ pending_confirmations w2 !! confirmation_key 1 5 = None.
Proof. vm_compute. done. Qed.

(** A run from the empty document keeps I2. *)
Lemma no_duplicate_membership_witness :
  let env := calm_env 0 100 in
  let owner := mkInteraction 1 (mkUser 9 false) 9 in
  let ops := [OpAdmin owner Add (mkUser 5 false); OpAdmin owner Add (mkUser 5 false);
              OpTarget owner Add (mkUser 7 false); OpTarget owner Add (mkUser 7 false);
              OpAccessor 1 (Some 9)] in
  no_duplicates (state (run_ops env ops empty_world)).
Proof.
  intros env owner ops.
  apply (proj1 (no_duplicate_membership env) ops empty_world).
  intros k gs H. simpl in H. by rewrite lookup_empty in H.
Defined.

(** The example scenario of the specification, run on the code: the
    owner's id reaches adminIDs as soon as a non-owner admin acts, and
    stays after that admin's self-demotion. *)
Example scenario_G1 :
  let env := calm_env 0 100 in
  let by_owner := mkInteraction 1 (mkUser 9 false) 9 in
  let by_u1 := mkInteraction 1 (mkUser 5 false) 9 in
  let w1 := run_ops env [OpAdmin by_owner Add (mkUser 5 false)] empty_world in
  let w2 := run_ops env [OpAdmin by_u1 Remove (mkUser 9 false);
                         OpTarget by_u1 Add (mkUser 7 false);
                         OpSetMessage by_u1 "pong";
                         OpMessage (mkMessage (mkUser 7 false) (Some (mkGuild 1 9)))] w1 in
  let w3 := run_ops env [OpAdmin by_u1 Remove (mkUser 5 false)] w2 in
  let w4 := run_ops env [OpAdmin by_u1 Remove (mkUser 5 false)] w3 in
  admins_of (state w1) 1 = [5]
  ∧ responses (trace w2)
    = [AddedAdmin 5; CannotRemoveOwner; AddedTarget 7; MessageSet "pong"]
  ∧ replies (trace w2) = ["pong"]
  ∧ admins_of (state w3) 1 = [5; 9]
  ∧ last (responses (trace w3)) = Some ConfirmPrompt
  ∧ last (responses (trace w4)) = Some SelfDemoted
  ∧ admins_of (state w4) 1 = [9].
Proof. vm_compute. done. Qed.

(** ** Keys *)

Lemma pretty_N_char_underscore (x : N) : pretty_N_char x ≠ "_"%char.
Proof. unfold pretty_N_char. by repeat case_match. Qed.

Lemma pretty_N_go_underscore_free (x : N) (s : string) :
  underscore_free s -> underscore_free (pretty_N_go x s).
Proof.
  revert s. induction (N.lt_wf_0 x) as [x _ IH]; intros s Hs.
  assert (x = 0 ∨ 0 < x)%N as [->|Hpos] by lia.
  - by rewrite pretty_N_go_0.
  - rewrite pretty_N_go_step by done. apply IH; [by apply N.div_lt|].
    split; [apply pretty_N_char_underscore | done].
Qed.

Lemma pretty_N_underscore_free (x : N) : underscore_free (pretty x).
Proof.
  unfold pretty, pretty_N. case_decide; [done|]. by apply pretty_N_go_underscore_free.
Qed.

(** [str] of an int has no underscore. *)
Lemma pretty_Z_underscore_free (z : Z) : underscore_free (pretty z).
Proof.
  unfold pretty, pretty_Z. destruct z as [|p|p]; [done| |].
  - apply (pretty_N_underscore_free (N.pos p)).
  - split; [done|]. apply (pretty_N_underscore_free (N.pos p)).
Qed.

Lemma append_empty (s : string) : "" +:+ s = s.
Proof. reflexivity. Qed.

Lemma append_String (c : ascii) (s t : string) : String c s +:+ t = String c (s +:+ t).
Proof. reflexivity. Qed.

(** Two strings cut at their first underscore. *)
Lemma split_at_underscore (s1 s2 t1 t2 : string) :
  underscore_free s1 -> underscore_free s2 ->
  s1 +:+ "_" +:+ t1 = s2 +:+ "_" +:+ t2 -> s1 = s2 ∧ t1 = t2.
Proof.
  revert s2. induction s1 as [|c s1 IH]; intros [|c' s2] H1 H2 Heq;
    rewrite ?append_String, ?append_empty in Heq; simpl in H1, H2.
  - by injection Heq as ->.
  - injection Heq as <- _. by destruct H2.
  - injection Heq as -> _. by destruct H1.
  - injection Heq as -> Heq. destruct H1 as [_ H1], H2 as [_ H2].
    destruct (IH s2 H1 H2 Heq) as [-> ->]. done.
Qed.

Lemma confirmation_key_inj (g u g' u' : Z) :
  confirmation_key g u = confirmation_key g' u' -> g = g' ∧ u = u'.
Proof.
  unfold confirmation_key. intros Heq.
  apply split_at_underscore in Heq as [Hg Hu]; try apply pretty_Z_underscore_free.
  split; by apply (inj pretty).
Qed.

Lemma guild_key_ne (g g' : Z) : g ≠ g' -> (pretty g : string) ≠ pretty g'.
Proof. intros Hne Heq. by apply Hne, (inj pretty). Qed.

(** ** More on the confirmation map *)

Section ConfirmationFacts.

Variable env : Env.

(** X1.  Confirmations are scoped per (guild, actor).  Recording,
    checking (with its lazy expiry) or clearing the confirmation of one
    (guild, actor) pair leaves the entry of every other pair as it was:
    two different pairs never share a key. *)
Theorem confirmations_are_isolated g u g' u' w :
  (g, u) ≠ (g', u') ->
  let k' := confirmation_key g' u' in
  confirmation_key g u ≠ k'
  ∧ pending_confirmations (snd (request_confirmation env g u w)) !! k'
    = pending_confirmations w !! k'
  ∧ pending_confirmations (snd (check_confirmation env g u w)) !! k'
    = pending_confirmations w !! k'
  ∧ pending_confirmations (snd (clear_confirmation g u w)) !! k'
    = pending_confirmations w !! k'.
Proof.
  intros Hne k'.
  assert (Hk : confirmation_key g u ≠ k').
  { intros Heq. apply confirmation_key_inj in Heq as [-> ->]. done. }
  split; [done|].
  rewrite request_confirmation_run, check_confirmation_run, clear_confirmation_run.
  unfold check_pure. simpl. split; [by rewrite lookup_insert_ne|]. split.
  - destruct (pending_confirmations w !! confirmation_key g u) as [t|]; [|done].
    destruct (Qle_bool _ _); simpl; [done|]. by rewrite lookup_delete_ne.
  - by rewrite lookup_delete_ne.
Qed.

(** X2.  Request, then check.  [request_confirmation] stores the
    clock reading it takes under the pair's key, replacing an entry that
    was there, and touches nothing else; a check that follows answers
    true exactly when the reading it takes is at most 60 seconds after
    the stored one, and then leaves the entry in place. *)
Theorem request_then_check g u w :
  let key := confirmation_key g u in
  let t0 := clock env (clock_reads w) in
  let t1 := clock env (S (clock_reads w)) in
  let w1 := snd (request_confirmation env g u w) in
  let w2 := snd (check_confirmation env g u w1) in
  fst (request_confirmation env g u w) = Ok tt
  ∧ pending_confirmations w1 = <[key := t0]> (pending_confirmations w)
  ∧ state w1 = state w ∧ trace w1 = trace w
  ∧ (fst (check_confirmation env g u w1) = Ok true <-> (t1 - t0 <= 60)%Q)
  ∧ (fst (check_confirmation env g u w1) = Ok false <-> (60 < t1 - t0)%Q)
  ∧ ((t1 - t0 <= 60)%Q -> pending_confirmations w2 !! key = Some t0)
  ∧ ((60 < t1 - t0)%Q -> pending_confirmations w2 !! key = None).
Proof.
  intros key t0 t1 w1 w2. subst w2 w1.
  rewrite request_confirmation_run. simpl. rewrite check_confirmation_run.
  unfold check_pure. simpl. fold key t0 t1. rewrite lookup_insert_eq.
  do 4 (split; [done|]).
  destruct (Qle_bool (t1 - t0) 60) eqn:Hle; simpl.
  - apply Qle_bool_iff in Hle. split; [done|]. split.
    + split; [done|]. intros Hlt. exfalso. by apply (Qlt_not_le _ _ Hlt).
    + split; [by rewrite lookup_insert_eq|].
      intros Hlt. exfalso. by apply (Qlt_not_le _ _ Hlt).
  - assert (Hlt : (60 < t1 - t0)%Q).
    { apply Qnot_le_lt. intros H. apply Qle_bool_iff in H. congruence. }
    split; [split; [done|]; intros H; exfalso; by apply (Qlt_not_le _ _ Hlt)|].
    split; [done|]. split.
    + intros H. exfalso. by apply (Qlt_not_le _ _ Hlt).
    + intros _. apply lookup_delete_eq.
Qed.

(** X3.  Clearing.  [clear_confirmation] never fails, with or without
    an entry; afterwards the pair has no entry, so a check answers false
    without reading the clock and without changing anything; clearing
    twice is clearing once; and without an entry clearing changes
    nothing at all.  The document and the trace are never touched. *)
Theorem clear_confirmation_spec g u w :
  let key := confirmation_key g u in
  let w1 := snd (clear_confirmation g u w) in
  fst (clear_confirmation g u w) = Ok tt
  ∧ pending_confirmations w1 = delete key (pending_confirmations w)
  ∧ pending_confirmations w1 !! key = None
  ∧ state w1 = state w ∧ trace w1 = trace w ∧ clock_reads w1 = clock_reads w
  ∧ check_confirmation env g u w1 = (Ok false, w1)
  ∧ clear_confirmation g u w1 = (Ok tt, w1)
  ∧ (pending_confirmations w !! key = None -> w1 = w).
Proof.
  intros key w1. subst w1. rewrite clear_confirmation_run. simpl. fold key.
  do 2 (split; [done|]). split; [apply lookup_delete_eq|]. do 3 (split; [done|]).
  split; [|split].
  - rewrite check_confirmation_run. unfold check_pure. simpl. fold key.
    by rewrite lookup_delete_eq.
  - rewrite clear_confirmation_run. simpl. fold key. by rewrite delete_delete_eq.
  - intros Hnone. rewrite delete_id by done. by destruct w.
Qed.

End ConfirmationFacts.

(** Owner 9 and admin 5 of guild 1 have different keys. *)
Lemma confirmations_are_isolated_witness :
  let env := calm_env 0 100 in
  let k' := confirmation_key 1 9 in
  confirmation_key 1 5 ≠ k'
  ∧ pending_confirmations (snd (request_confirmation env 1 5 empty_world)) !! k'
    = pending_confirmations empty_world !! k'
  ∧ pending_confirmations (snd (check_confirmation env 1 5 empty_world)) !! k'
    = pending_confirmations empty_world !! k'
  ∧ pending_confirmations (snd (clear_confirmation 1 5 empty_world)) !! k'
    = pending_confirmations empty_world !! k'.
Proof.
  intros env. apply (confirmations_are_isolated env 1 5 1 9 empty_world).
  intros H. discriminate H.
Defined.

(** ** Events, one at a time *)

Section EventFacts.

Variable env : Env.

Lemma outcome_of_pending i m w :
  is_self_removal
    (match m with
     | MutAdmin a u => OpAdmin i a u
     | MutTarget a u => OpTarget i a u
     | MutSetMessage text => OpSetMessage i text
     end) = false ->
  out_pending (outcome_of env i m w) = pending_confirmations w
  ∧ out_reads (outcome_of env i m w) = clock_reads w.
Proof.
  intros Hself. unfold outcome_of, gated. destruct (authorized _ _ _); [|done].
  destruct m as [[|] u|[|] u|text]; simpl in Hself.
  - unfold admin_outcome. destruct (bot u); [done|]. by destruct (_ || _).
  - unfold admin_outcome. rewrite Hself.
    destruct (user_id u =? guild_owner_id i); [done|]. by destruct (negb _).
  - unfold target_outcome. destruct (bot u); [done|]. by destruct (py_in _ _).
  - unfold target_outcome. by destruct (negb _).
  - done.
Qed.

Lemma op_effect_guild op w g rec :
  op_effect env op w = Some (g, rec) -> op_guild op = Some g.
Proof.
  destruct op as [i a u|i a u|i text|i|msg|g0 o]; simpl; try by intros [= <- _].
  destruct (_ =? _); [done|]. destruct (guild msg) as [gd|]; [|done]. by intros [= <- _].
Qed.

(** What any event does to the world: it ends normally, and the
    document is the one before with, at most, one record replaced. *)
Lemma run_op_effect op w :
  ∃ w' tr,
    run_op env op w = (Ok tt, w')
    ∧ trace w' = trace w ++ tr
    ∧ state w' = match op_effect env op w with
                 | None => state w
                 | Some (g, rec) => <[pretty g := rec]> (state w)
                 end
    ∧ (is_self_removal op = false ->
       pending_confirmations w' = pending_confirmations w
       ∧ clock_reads w' = clock_reads w).
Proof.
  assert (Hmut : ∀ i m,
    let op0 := match m with
              | MutAdmin a u => OpAdmin i a u
              | MutTarget a u => OpTarget i a u
              | MutSetMessage text => OpSetMessage i text
              end in
    ∃ w' tr, run_op env op0 w = (Ok tt, w') ∧ trace w' = trace w ++ tr
      ∧ state w' = <[pretty (guild_id i) := out_record (outcome_of env i m w)]> (state w)
      ∧ (is_self_removal op0 = false ->
         pending_confirmations w' = pending_confirmations w
         ∧ clock_reads w' = clock_reads w)).
  { intros i m op0.
    assert (∃ n tr, run_op env op0 w
                    = (Ok tt, settle w (guild_id i) (outcome_of env i m w) n tr))
      as (n & tr & ->).
    { subst op0. destruct m as [a u|a u|text]; simpl.
      - destruct (admin_command_run env i a u w) as (n & tr & H & _). by exists n, tr.
      - destruct (target_command_run env i a u w) as (n & tr & H & _). by exists n, tr.
      - destruct (setmessage_command_run env i text w) as (n & tr & H & _). by exists n, tr. }
    eexists _, tr. split; [done|]. split; [done|]. split; [done|].
    intros Hself. simpl. by apply outcome_of_pending. }
  destruct op as [i a u|i a u|i text|i|msg|g o].
  - apply (Hmut i (MutAdmin a u)).
  - apply (Hmut i (MutTarget a u)).
  - apply (Hmut i (MutSetMessage text)).
  - simpl. destruct (info_command_run env i w) as (n & tr & -> & _).
    eexists _, _. split; [done|]. done.
  - simpl. pose proof (on_message_run env msg w) as H.
    destruct (user_id (author msg) =? client_user env).
    { exists w, []. rewrite app_nil_r. done. }
    destruct (guild msg) as [gd|].
    2:{ exists w, []. rewrite app_nil_r. done. }
    destruct H as (n & tr & -> & _). eexists _, _. split; [done|]. done.
  - simpl. unfold bind. destruct (get_guild_state_run env g o w) as (n & tr & -> & _).
    eexists _, _. split; [done|]. done.
Qed.


(** X5.  A record is never deleted (I3).  Whatever the run, every
    guild key of the document before is a key of the document after. *)
Theorem records_are_never_deleted ops w :
  dom (state w) ⊆ dom (state (run_ops env ops w)).
Proof.
  revert w. induction ops as [|op ops IH]; intros w; [done|]. simpl.
  etrans; [|apply IH].
  destruct (run_op_effect op w) as (w' & tr & Hrun & _ & Hst & _).
  rewrite Hrun. simpl. rewrite Hst.
  destruct (op_effect env op w) as [[g rec]|]; [|done].
  rewrite dom_insert_L. set_solver.
Qed.

(** X6.  Guilds are isolated.  A run none of whose events is about
    guild [g'] leaves that guild's record exactly as it was (present
    with the same content, or absent): different guild ids never share
    a key of the document. *)
Theorem guilds_are_isolated ops g' w :
  Forall (fun op => op_guild op ≠ Some g') ops ->
  state (run_ops env ops w) !! pretty g' = state w !! pretty g'.
Proof.
  intros Hall. revert w. induction Hall as [|op ops Hop _ IH]; intros w; [done|].
  simpl. rewrite IH.
  destruct (run_op_effect op w) as (w' & tr & Hrun & _ & Hst & _).
  rewrite Hrun. simpl. rewrite Hst.
  destruct (op_effect env op w) as [[g rec]|] eqn:E; [|done].
  apply op_effect_guild in E. rewrite lookup_insert_ne; [done|].
  apply guild_key_ne. congruence.
Qed.

(** X7.  Only a self-removal touches the confirmations.  Every event
    other than an [/admin remove] whose target is the actor leaves
    [pending_confirmations] as it was and does not read the clock. *)
Theorem only_self_removal_touches_confirmations op w :
  is_self_removal op = false ->
  pending_confirmations (snd (run_op env op w)) = pending_confirmations w
  ∧ clock_reads (snd (run_op env op w)) = clock_reads w.
Proof.
  intros Hself. destruct (run_op_effect op w) as (w' & tr & Hrun & _ & _ & H).
  rewrite Hrun. by apply H.
Qed.

End EventFacts.

(** Events of guild 1 leave the record of guild 2 alone. *)
Lemma guilds_are_isolated_witness :
  let env := calm_env 0 100 in
  let owner := mkInteraction 1 (mkUser 9 false) 9 in
  let ops := [OpAdmin owner Add (mkUser 5 false); OpSetMessage owner "pong"] in
  let w := mkWorld {[ "2" := mkGuildState [3] [4] "hi" ]} ∅ 0 0 [] in
  state (run_ops env ops w) !! pretty 2 = state w !! pretty 2.
Proof.
  intros env owner ops w. apply (guilds_are_isolated env ops 2 w).
  repeat constructor; simpl; intros H; discriminate H.
Defined.

(** A [/setmessage] is not a self-removal. *)
Lemma only_self_removal_touches_confirmations_witness :
  let env := calm_env 0 100 in
  let op := OpSetMessage (mkInteraction 1 (mkUser 9 false) 9) "pong" in
  pending_confirmations (snd (run_op env op empty_world))
  = pending_confirmations empty_world
  ∧ clock_reads (snd (run_op env op empty_world)) = clock_reads empty_world.
Proof.
  intros env op. apply (only_self_removal_touches_confirmations env op empty_world).
  reflexivity.
Defined.

(** ** Membership queries and [/info] *)

Lemma admins_of_insert (st : State) (g : Z) gs : admins_of (<[pretty g := gs]> st) g = adminIDs gs.
Proof. unfold admins_of. by rewrite lookup_insert_eq. Qed.

Lemma targets_of_insert (st : State) (g : Z) gs : targets_of (<[pretty g := gs]> st) g = targetIDs gs.
Proof. unfold targets_of. by rewrite lookup_insert_eq. Qed.

Lemma message_of_insert (st : State) (g : Z) gs : message_of (<[pretty g := gs]> st) g = message gs.
Proof. unfold message_of. by rewrite lookup_insert_eq. Qed.

Lemma list_to_set_heal (o : Z) (l : list Z) :
  (list_to_set (heal o l) : gset Z) ∪ {[o]} = list_to_set l ∪ {[o]}.
Proof.
  unfold heal. destruct (py_in o l); [done|].
  rewrite list_to_set_app_L. simpl. rewrite (right_id_L ∅ (∪) {[o]}).
  by rewrite <- (assoc_L (∪)), (idemp_L (∪) {[o]}).
Qed.

Section QueryFacts.

Variable env : Env.

(** X8.  [is_admin] in full.  The answer is true exactly when the user
    is the owner or is in the guild's adminIDs as they were before the
    call.  For the owner the world is left as it was; for anybody else
    the call goes through the accessor, so the admin list afterwards is
    the list before with the owner appended when missing (for a guild
    without a record: the owner alone).  Targets, message and
    confirmations are untouched and nothing is sent. *)
Theorem is_admin_spec g x o w :
  let l := admins_of (state w) g in
  ∃ w' tr,
    is_admin env g x o w = (Ok (authorized x o l), w')
    ∧ (authorized x o l = true <-> x = o ∨ x ∈ l)
    ∧ trace w' = trace w ++ tr ∧ quiet tr
    ∧ admins_of (state w') g = after_auth x o l
    ∧ targets_of (state w') g = targets_of (state w) g
    ∧ message_of (state w') g = message_of (state w) g
    ∧ pending_confirmations w' = pending_confirmations w
    ∧ (x = o -> w' = w).
Proof.
  intros l. destruct (is_admin_run env g x o w) as (n & tr & Hrun & Hq).
  eexists _, tr. split; [exact Hrun|]. split.
  { unfold authorized. rewrite orb_true_iff, Z.eqb_eq, py_in_spec. done. }
  split; [done|]. split; [done|]. unfold after_auth. simpl.
  destruct (Z.eqb_spec x o) as [Heq|Hne].
  - do 4 (split; [done|]). intros _. subst x. pose proof Hrun as H2.
    unfold is_admin, ret in H2. rewrite Z.eqb_refl in H2.
    injection H2 as _ H3. by symmetry.
  - rewrite admins_of_insert, targets_of_insert, message_of_insert.
    rewrite adminIDs_healed, targetIDs_healed, message_healed. done.
Qed.

(** X9.  [is_target] in full: no owner bypass.  The answer is
    membership in the guild's targetIDs as they were before the call,
    whatever owner id is passed; it is false for everybody, the owner
    included, in a guild without a record.  The call goes through the
    accessor (the owner, when given, is appended to adminIDs when
    missing); targets, message and confirmations are untouched and
    nothing is sent. *)
Theorem is_target_spec g u o w :
  ∃ w' tr,
    is_target env g u o w = (Ok (py_in u (targets_of (state w) g)), w')
    ∧ (py_in u (targets_of (state w) g) = true <-> u ∈ targets_of (state w) g)
    ∧ (state w !! pretty g = None -> py_in u (targets_of (state w) g) = false)
    ∧ trace w' = trace w ++ tr ∧ quiet tr
    ∧ admins_of (state w') g
      = match o with Some o => heal o (admins_of (state w) g) | None => admins_of (state w) g end
    ∧ targets_of (state w') g = targets_of (state w) g
    ∧ message_of (state w') g = message_of (state w) g
    ∧ pending_confirmations w' = pending_confirmations w.
Proof.
  destruct (is_target_run env g u o w) as (n & tr & Hrun & Hq). cbv zeta in Hrun.
  rewrite targetIDs_healed in Hrun.
  eexists _, tr. split; [exact Hrun|]. split; [apply py_in_spec|]. split.
  { unfold targets_of. by intros ->. }
  split; [done|]. split; [done|]. simpl.
  rewrite admins_of_insert, targets_of_insert, message_of_insert.
  rewrite targetIDs_healed, message_healed. split; [|done].
  destruct o as [o|]; [apply adminIDs_healed|].
  unfold admins_of. by destruct (state w !! pretty g).
Qed.

(** X10.  [/info] is open to everybody and shows the owner.  Whoever
    the actor, the command ends with exactly one response, built from
    the targets in list order, the message, and the set of adminIDs
    together with the owner id, which is therefore always shown, listed
    or not; the response does not depend on the actor.  Apart from the
    accessor's appending of a missing owner the document is untouched,
    and so are the confirmations. *)
Theorem info_command_spec i w :
  let g := guild_id i in
  let o := guild_owner_id i in
  let shown : gset Z := list_to_set (admins_of (state w) g) ∪ {[o]} in
  ∃ w' tr,
    info_command env i w = (Ok tt, w')
    ∧ trace w' = trace w ++ tr ∧ replies tr = []
    ∧ responses tr = [Info (targets_of (state w) g) shown (message_of (state w) g)]
    ∧ o ∈ shown ∧ (∀ a, a ∈ admins_of (state w) g -> a ∈ shown)
    ∧ admins_of (state w') g = heal o (admins_of (state w) g)
    ∧ targets_of (state w') g = targets_of (state w) g
    ∧ message_of (state w') g = message_of (state w) g
    ∧ pending_confirmations w' = pending_confirmations w
    ∧ ∀ actor, info_command env (mkInteraction g actor o) w = info_command env i w.
Proof.
  intros g o shown.
  destruct (info_command_run env i w) as (n & tr & Hrun & Hp & Hr). cbv zeta in Hrun, Hr.
  fold g o in Hrun, Hr.
  rewrite targetIDs_healed, message_healed, adminIDs_healed, list_to_set_heal in Hr.
  eexists _, tr. split; [exact Hrun|]. split; [done|]. split; [done|].
  split; [exact Hr|]. split; [set_solver|]. split; [set_solver|]. simpl.
  rewrite admins_of_insert, targets_of_insert, message_of_insert.
  rewrite adminIDs_healed, targetIDs_healed, message_healed. done.
Qed.

End QueryFacts.

(** ** What commands change, and what they do not *)

Lemma elem_of_heal (v o : Z) (l : list Z) : v ∈ heal o l <-> v ∈ l ∨ v = o.
Proof.
  unfold heal. destruct (py_in o l) eqn:E.
  - apply py_in_spec in E. split; [by left|]. by intros [?| ->].
  - rewrite elem_of_app, list_elem_of_singleton. done.
Qed.

Lemma elem_of_after_auth (v x o : Z) (l : list Z) :
  (v ∈ l -> v ∈ after_auth x o l) ∧ (v ∈ after_auth x o l -> v ∈ l ∨ v = o).
Proof.
  unfold after_auth. destruct (x =? o); [by split; [|left]|].
  rewrite elem_of_heal. split; [by left|done].
Qed.

Lemma elem_of_remove_first (v t : Z) (l : list Z) :
  (v ∈ remove_first t l -> v ∈ l) ∧ (v ∈ l -> v ≠ t -> v ∈ remove_first t l).
Proof.
  unfold remove_first. destruct (py_remove t l) as [l'|] eqn:E; simpl; [|done]. split.
  - intros Hin. eapply elem_of_sublist; [exact Hin|]. by eapply py_remove_sublist.
  - revert l' E. induction l as [|y l IH]; intros l' E Hin Hne; simpl in E; [done|].
    destruct (Z.eqb_spec y t) as [->|Hyt].
    + injection E as <-. apply elem_of_cons in Hin as [->|Hin]; done.
    + destruct (py_remove t l) as [l''|]; simpl in E; [|done]. injection E as <-.
      apply elem_of_cons in Hin as [->|Hin]; [apply elem_of_cons; by left|].
      apply elem_of_cons. right. by apply IH.
Qed.

Section CommandFacts.

Variable env : Env.

(** A command that is not accepted is turned down on the fetched
    record, which it leaves as it is. *)
Lemma rejected_outcome i m w :
  accepted env i m w = false ->
  let g := guild_id i in
  let x := user_id (user i) in
  let o := guild_owner_id i in
  let out := outcome_of env i m w in
  ∃ r,
    out_verdict out = Rejected r
    ∧ out_record out
      = fetched x o (match m with MutAdmin _ _ => None | _ => Some o end)
                (state w !! pretty g)
    ∧ r ≠ SaveFailed ∧ r ≠ success m x
    ∧ (authorized x o (admins_of (state w) g) = false -> r = NoPermission)
    ∧ (r = ConfirmPrompt ∨ out_pending out = pending_confirmations w).
Proof.
  intros Hacc g x o out. subst out. revert Hacc.
  unfold accepted, outcome_of, gated. fold g x o. fold (admins_of (state w) g).
  destruct (authorized x o (admins_of (state w) g)).
  2:{ intros _. exists NoPermission. repeat split; try done; [|by right].
      destruct m as [[|] u|[|] u|text]; simpl; try done. by destruct (_ =? _). }
  rewrite andb_true_l.
  destruct m as [[|] u|[|] u|text].
  - pose proof (adminIDs_fetched_None x o (state w !! pretty g)) as Hl.
    fold (admins_of (state w) g) in Hl. rewrite <- Hl.
    unfold admin_outcome. destruct (bot u); simpl.
    { intros _. eexists. repeat split; try done. by right. }
    destruct (_ || _); [|done]. intros _. eexists. repeat split; try done. by right.
  - pose proof (adminIDs_fetched_None x o (state w !! pretty g)) as Hl.
    fold (admins_of (state w) g) in Hl. rewrite <- Hl.
    unfold admin_outcome, success. destruct (user_id u =? o); simpl.
    { intros _. eexists. repeat split; try done; [by destruct (_ =? _)|by right]. }
    destruct (py_in _ _); simpl.
    2:{ intros _. eexists. repeat split; try done; [by destruct (_ =? _)|by right]. }
    destruct (user_id u =? x) eqn:Hself; [|done].
    unfold confirmed_now, check_pure.
    destruct (pending_confirmations w !! confirmation_key g x) as [t|].
    + intros ->. eexists. repeat split; try done. by left.
    + intros _. eexists. repeat split; try done. by left.
  - pose proof (targetIDs_fetched x o (Some o) (state w !! pretty g)) as Hl.
    fold (targets_of (state w) g) in Hl. rewrite <- Hl.
    unfold target_outcome. destruct (bot u); simpl.
    { intros _. eexists. repeat split; try done. by right. }
    destruct (py_in _ _); [|done]. intros _. eexists. repeat split; try done. by right.
  - pose proof (targetIDs_fetched x o (Some o) (state w !! pretty g)) as Hl.
    fold (targets_of (state w) g) in Hl. rewrite <- Hl.
    unfold target_outcome. intros ->. simpl. eexists. repeat split; try done. by right.
  - done.
Qed.

(** The fields a command's kind never writes. *)
Lemma outcome_frame i m w :
  let g := guild_id i in
  let o := guild_owner_id i in
  let gs := out_record (outcome_of env i m w) in
  match m with
  | MutAdmin _ _ =>
      targetIDs gs = targets_of (state w) g ∧ message gs = message_of (state w) g
  | MutTarget _ _ =>
      adminIDs gs = heal o (admins_of (state w) g) ∧ message gs = message_of (state w) g
  | MutSetMessage _ =>
      adminIDs gs = heal o (admins_of (state w) g) ∧ targetIDs gs = targets_of (state w) g
  end.
Proof.
  intros g o gs. subst gs. unfold outcome_of, gated. fold g o.
  set (x := user_id (user i)).
  pose proof (targetIDs_fetched x o None (state w !! pretty g)) as HtN.
  pose proof (message_fetched x o None (state w !! pretty g)) as HmN.
  pose proof (targetIDs_fetched x o (Some o) (state w !! pretty g)) as HtS.
  pose proof (message_fetched x o (Some o) (state w !! pretty g)) as HmS.
  pose proof (adminIDs_fetched_Some x o (state w !! pretty g)) as HaS.
  fold (targets_of (state w) g) in HtN, HtS. fold (message_of (state w) g) in HmN, HmS.
  fold (admins_of (state w) g) in HaS.
  destruct m as [a u|a u|text]; destruct (authorized _ _ _); try done.
  - unfold admin_outcome. destruct a.
    + destruct (bot u); [done|]. by destruct (_ || _).
    + destruct (user_id u =? o); [done|]. destruct (negb _); [done|].
      destruct (_ =? _); [|done]. by destruct (check_pure _ _ _ _) as [[[|] ?] ?].
  - unfold target_outcome. destruct a.
    + destruct (bot u); [done|]. by destruct (py_in _ _).
    + by destruct (negb _).
Qed.

End CommandFacts.

Lemma adminIDs_healed_opt (o : option Z) (st : State) (g : Z) :
  adminIDs (healed_record o (st !! pretty g))
  = match o with Some o => heal o (admins_of st g) | None => admins_of st g end.
Proof.
  destruct o as [o|]; [apply adminIDs_healed|].
  unfold admins_of. by destruct (st !! pretty g).
Qed.

Section ChangeFacts.

Variable env : Env.

(** The record of guild [g] after an event. *)
Lemma op_lookup op w g :
  state (snd (run_op env op w)) !! pretty g
  = match op_effect env op w with
    | Some (g0, rec) => if decide (g0 = g) then Some rec else state w !! pretty g
    | None => state w !! pretty g
    end.
Proof.
  destruct (run_op_effect env op w) as (w' & tr & Hrun & _ & Hst & _).
  rewrite Hrun. simpl. rewrite Hst.
  destruct (op_effect env op w) as [[g0 rec]|]; [|done].
  destruct (decide (g0 = g)) as [->|Hne]; [apply lookup_insert_eq|].
  rewrite lookup_insert_ne; [done|]. by apply guild_key_ne.
Qed.

(** X11.  Validation fails closed.  A mutating command that does not
    pass the permission check and its validation ends with exactly one
    response, which is neither the success text nor [SaveFailed] (and is
    the permission text when the actor is not authorized); it leaves
    targetIDs and the message as they were and adminIDs as the accessor
    made them (the list before, with the owner appended when missing);
    the confirmations change only when the response is the
    self-demotion prompt. *)
Theorem rejected_commands_do_not_mutate i m w :
  accepted env i m w = false ->
  let g := guild_id i in
  let x := user_id (user i) in
  let o := guild_owner_id i in
  let l := admins_of (state w) g in
  ∃ w' tr r,
    run_mutating env i m w = (Ok tt, w') ∧ trace w' = trace w ++ tr
    ∧ responses tr = [r] ∧ r ≠ SaveFailed ∧ r ≠ success m x
    ∧ (authorized x o l = false -> r = NoPermission)
    ∧ admins_of (state w') g
      = match m with MutAdmin _ _ => after_auth x o l | _ => heal o l end
    ∧ targets_of (state w') g = targets_of (state w) g
    ∧ message_of (state w') g = message_of (state w) g
    ∧ (r = ConfirmPrompt ∨ pending_confirmations w' = pending_confirmations w).
Proof.
  intros Hacc g x o l.
  destruct (rejected_outcome env i m w Hacc) as (r & Hver & Hrec & Hr1 & Hr2 & Hr3 & Hr4).
  destruct (run_mutating_summary env i m w)
    as (w' & tr & Hrun & Htr & _ & Hrep & _ & Hadm & Htgt & Hmsg & Hpc & _).
  rewrite Hver in Hrep. simpl in Hrep. fold g x o in Hrec.
  rewrite Hrec in Hadm, Htgt, Hmsg. fold g in Hadm, Htgt, Hmsg.
  rewrite targetIDs_fetched in Htgt. rewrite message_fetched in Hmsg.
  exists w', tr, r. do 6 (split; [done|]). split; [|split; [done|split; [done|]]].
  - rewrite Hadm. destruct m; [apply adminIDs_fetched_None|apply adminIDs_fetched_Some..].
  - destruct Hr4 as [?|Hr4]; [by left|right]. by rewrite Hpc.
Qed.

(** How one event changes a guild's admin list: a member is lost only
    to an accepted removal of that member, and gained only as the
    event's owner or by an accepted add of that user. *)
Lemma admins_step op w g :
  let l := admins_of (state w) g in
  let l' := admins_of (state (snd (run_op env op w))) g in
  (∀ v, v ∈ l -> v ∉ l' ->
     ∃ i u, op = OpAdmin i Remove u ∧ guild_id i = g ∧ user_id u = v
            ∧ accepted env i (MutAdmin Remove u) w = true)
  ∧ (∀ v, v ∉ l -> v ∈ l' ->
       (op_guild op = Some g ∧ op_owner op = Some v)
       ∨ ∃ i u, op = OpAdmin i Add u ∧ guild_id i = g ∧ user_id u = v
                ∧ accepted env i (MutAdmin Add u) w = true).
Proof.
  intros l l'.
  assert (Hl' : l' = match op_effect env op w with
                     | Some (g0, rec) => if decide (g0 = g) then adminIDs rec else l
                     | None => l
                     end).
  { subst l l'. unfold admins_of. rewrite op_lookup.
    destruct (op_effect env op w) as [[g0 rec]|]; [|done]. by destruct (decide (g0 = g)). }
  rewrite Hl'. clear Hl' l'.
  destruct (op_effect env op w) as [[g0 rec]|] eqn:E; [|by split].
  destruct (decide (g0 = g)) as [->|Hne]; [|by split].
  assert (Hheal : ∀ o', adminIDs rec = match o' with Some o => heal o l | None => l end ->
    op_owner op = o' -> op_guild op = Some g ->
    (∀ v, v ∈ l -> v ∉ adminIDs rec -> False)
    ∧ (∀ v, v ∉ l -> v ∈ adminIDs rec -> op_guild op = Some g ∧ op_owner op = Some v)).
  { intros o' -> Ho Hg. destruct o' as [o'|]; [|by split]. split.
    - intros v Hin Hnot. apply Hnot, elem_of_heal. by left.
    - intros v Hnot Hin. apply elem_of_heal in Hin as [?| ->]; done. }
  assert (Hmut : ∀ i m,
    op = match m with
         | MutAdmin a u => OpAdmin i a u
         | MutTarget a u => OpTarget i a u
         | MutSetMessage text => OpSetMessage i text
         end ->
    guild_id i = g -> rec = out_record (outcome_of env i m w) ->
    (∀ v, v ∈ l -> v ∉ adminIDs rec ->
       ∃ i u, op = OpAdmin i Remove u ∧ guild_id i = g ∧ user_id u = v
              ∧ accepted env i (MutAdmin Remove u) w = true)
    ∧ (∀ v, v ∉ l -> v ∈ adminIDs rec ->
         (op_guild op = Some g ∧ op_owner op = Some v)
         ∨ ∃ i u, op = OpAdmin i Add u ∧ guild_id i = g ∧ user_id u = v
                  ∧ accepted env i (MutAdmin Add u) w = true)).
  { intros i m Hop Hg Hrec.
    assert (Hown : op_guild op = Some g ∧ op_owner op = Some (guild_owner_id i)).
    { rewrite Hop. destruct m; simpl; by rewrite Hg. }
    set (x := user_id (user i)). set (o := guild_owner_id i) in *.
    assert (Hfetched : adminIDs rec = after_auth x o l ∨ adminIDs rec = heal o l ->
      (∀ v, v ∈ l -> v ∉ adminIDs rec -> False)
      ∧ (∀ v, v ∉ l -> v ∈ adminIDs rec -> op_guild op = Some g ∧ op_owner op = Some v)).
    { intros [-> | ->]; split; intros v H1 H2.
      - by apply H2, elem_of_after_auth.
      - apply elem_of_after_auth in H2 as [?| ->]; [done|]. apply Hown.
      - apply H2, elem_of_heal. by left.
      - apply elem_of_heal in H2 as [?| ->]; [done|]. apply Hown. }
    destruct (accepted env i m w) eqn:Hacc.
    2:{ destruct (rejected_outcome env i m w Hacc) as (r & _ & Hrec' & _).
        rewrite <- Hrec in Hrec'. rewrite Hg in Hrec'. fold x o in Hrec'.
        destruct Hfetched as [H1 H2].
        { rewrite Hrec'. destruct m; [left; apply adminIDs_fetched_None
                                     |right; apply adminIDs_fetched_Some..]. }
        split; intros v ? ?; [by destruct (H1 v)|left; by apply H2]. }
    pose proof (accepted_outcome env i m w Hacc) as [_ Hrec']. cbv zeta in Hrec'.
    pose proof (outcome_frame env i m w) as Hframe. cbv zeta in Hframe.
    rewrite <- Hrec in Hrec', Hframe. rewrite Hg in Hrec', Hframe. fold x o l in Hrec', Hframe.
    destruct m as [[|] u|a u|text].
    - rewrite Hrec'. split.
      + intros v Hin Hnot. exfalso. apply Hnot, elem_of_app. left. by apply elem_of_after_auth.
      + intros v Hnot Hin. apply elem_of_app in Hin as [Hin|Hin].
        * left. apply elem_of_after_auth in Hin as [?| ->]; [done|]. apply Hown.
        * apply list_elem_of_singleton in Hin as ->. right. by exists i, u.
    - rewrite Hrec'. split.
      + intros v Hin Hnot. exists i, u. do 2 (split; [done|]). split; [|done].
        destruct (decide (v = user_id u)) as [->|Hne]; [done|]. exfalso.
        apply Hnot, elem_of_remove_first; [|done]. by apply elem_of_after_auth.
      + intros v Hnot Hin. left. apply elem_of_remove_first in Hin.
        apply elem_of_after_auth in Hin as [?| ->]; [done|]. apply Hown.
    - destruct Hframe as [Ha _]. destruct Hfetched as [H1 H2]; [by right|].
      split; intros v ? ?; [by destruct (H1 v)|left; by apply H2].
    - destruct Hframe as [Ha _]. destruct Hfetched as [H1 H2]; [by right|].
      split; intros v ? ?; [by destruct (H1 v)|left; by apply H2]. }
  destruct op as [i a u|i a u|i text|i|msg|g1 o1]; simpl in E.
  - injection E as Hg Hrec. by apply (Hmut i (MutAdmin a u)).
  - injection E as Hg Hrec. by apply (Hmut i (MutTarget a u)).
  - injection E as Hg Hrec. by apply (Hmut i (MutSetMessage text)).
  - injection E as Hg Hrec. subst g.
    destruct (Hheal (Some (guild_owner_id i))) as [H1 H2]; try done.
    { rewrite <- Hrec. apply adminIDs_healed. }
    split; intros v ? ?; [by destruct (H1 v)|left; by apply H2].
  - destruct (_ =? _); [done|]. destruct (guild msg) as [gd|] eqn:Hgd; [|done].
    injection E as Hg Hrec. subst g.
    destruct (Hheal (Some (owner_id gd))) as [H1 H2]; simpl; try by rewrite Hgd.
    { rewrite <- Hrec. apply adminIDs_healed. }
    split; intros v ? ?; [by destruct (H1 v)|left; by apply H2].
  - injection E as Hg Hrec. subst g1.
    destruct (Hheal o1) as [H1 H2]; try done.
    { rewrite <- Hrec. apply adminIDs_healed_opt. }
    split; intros v ? ?; [by destruct (H1 v)|left; by apply H2].
Qed.

(** X12.  Between two loads of the document, admin status is lost only
    to an accepted removal.  When a user is in a guild's adminIDs before
    a command, a chat message or an accessor call and not after it, that
    event is an [/admin remove] in that guild targeting that user, issued
    by an authorized actor, the target not being the owner and, when the
    target is the actor, the confirmation being pending and in its
    window.  No other command, chat message, accessor call or rejected
    command ever drops an admin.  ([on_ready], which replaces the whole
    document by the file's, is not among these events.) *)
Theorem admin_lost_only_by_accepted_removal op w g v :
  v ∈ admins_of (state w) g ->
  v ∉ admins_of (state (snd (run_op env op w))) g ->
  ∃ i u,
    op = OpAdmin i Remove u ∧ guild_id i = g ∧ user_id u = v
    ∧ accepted env i (MutAdmin Remove u) w = true
    ∧ authorized (user_id (user i)) (guild_owner_id i) (admins_of (state w) g) = true
    ∧ v ≠ guild_owner_id i
    ∧ (v = user_id (user i) -> confirmed_now env g v w = true).
Proof.
  intros Hin Hnot.
  destruct (proj1 (admins_step op w g) v Hin Hnot) as (i & u & -> & <- & <- & Hacc).
  exists i, u. do 4 (split; [done|]). revert Hacc. unfold accepted.
  destruct (authorized _ _ _); [|done]. rewrite andb_true_l.
  destruct (Z.eqb_spec (user_id u) (guild_owner_id i)); [done|].
  destruct (py_in _ _); [|done]. simpl.
  destruct (Z.eqb_spec (user_id u) (user_id (user i))) as [Heq|Hne].
  - intros Hc. do 2 (split; [done|]). intros _. by rewrite Heq.
  - intros _. done.
Qed.

(** X13.  Between two loads of the document, admin status is gained
    only by an accepted add, or as the owner.  When a user is not in a
    guild's adminIDs before a command, a chat message or an accessor
    call and is in them after it, either that event is about that guild
    and the user is the owner id it carries (the accessor's
    self-healing), or it is an [/admin add] in that guild of that user,
    who is not a bot, issued by an authorized actor.  ([on_ready], which
    replaces the whole document by the file's, is not among these
    events.) *)
Theorem admin_gained_only_by_accepted_add_or_owner op w g v :
  v ∉ admins_of (state w) g ->
  v ∈ admins_of (state (snd (run_op env op w))) g ->
  (op_guild op = Some g ∧ op_owner op = Some v)
  ∨ ∃ i u,
      op = OpAdmin i Add u ∧ guild_id i = g ∧ user_id u = v
      ∧ accepted env i (MutAdmin Add u) w = true
      ∧ authorized (user_id (user i)) (guild_owner_id i) (admins_of (state w) g) = true
      ∧ bot u = false.
Proof.
  intros Hnot Hin.
  destruct (proj2 (admins_step op w g) v Hnot Hin) as [?|(i & u & -> & <- & <- & Hacc)];
    [by left|right].
  exists i, u. do 4 (split; [done|]). revert Hacc. unfold accepted.
  destruct (authorized _ _ _); [|done]. rewrite andb_true_l.
  by destruct (bot u).
Qed.

(** X14.  Between two loads of the document, the owner, once listed,
    stays listed.  Over any run of commands, chat messages and accessor
    calls in which every event about guild [g] that carries an owner id
    carries [o], an [o] that is in the guild's adminIDs at the start is
    in them at the end.  (A run has no [on_ready] in it: a reload
    replaces the list by the file's.) *)
Theorem listed_owner_stays_listed ops g o w :
  Forall (fun op => op_guild op = Some g -> ∀ o', op_owner op = Some o' -> o' = o) ops ->
  o ∈ admins_of (state w) g ->
  o ∈ admins_of (state (run_ops env ops w)) g.
Proof.
  intros Hall. revert w. induction Hall as [|op ops Hop _ IH]; intros w Hin; [done|].
  simpl. apply IH.
  destruct (decide (o ∈ admins_of (state (snd (run_op env op w))) g)) as [?|Hnot]; [done|].
  exfalso.
  destruct (proj1 (admins_step op w g) o Hin Hnot) as (i & u & -> & Hg & Hu & Hacc).
  specialize (Hop (f_equal Some Hg) (guild_owner_id i) eq_refl).
  revert Hacc. unfold accepted. rewrite Hu, Hop, Z.eqb_refl. simpl.
  by rewrite andb_false_r.
Qed.

End ChangeFacts.

(** ** Round trips *)

Lemma remove_first_app_new (t : Z) (l : list Z) : t ∉ l -> remove_first t (l ++ [t]) = l.
Proof.
  intros Hnot. unfold remove_first. induction l as [|y l IH]; simpl.
  - by rewrite Z.eqb_refl.
  - apply not_elem_of_cons in Hnot as [Hne Hnot].
    destruct (Z.eqb_spec y t) as [->|_]; [done|].
    specialize (IH Hnot). destruct (py_remove t (l ++ [t])) as [l'|]; simpl in *; by f_equal.
Qed.

Section RoundTrips.

Variable env : Env.

(** An accepted command, in full: its own field mutated, the others as
    the accessor leaves them. *)
Lemma accepted_run i m w :
  accepted env i m w = true ->
  let g := guild_id i in
  let x := user_id (user i) in
  let o := guild_owner_id i in
  ∃ w' tr,
    run_mutating env i m w = (Ok tt, w') ∧ trace w' = trace w ++ tr ∧ replies tr = []
    ∧ mutation_applied i m (state w) (state w')
    ∧ match m with
      | MutAdmin _ _ =>
          targets_of (state w') g = targets_of (state w) g
          ∧ message_of (state w') g = message_of (state w) g
      | MutTarget _ _ =>
          admins_of (state w') g = heal o (admins_of (state w) g)
          ∧ message_of (state w') g = message_of (state w) g
      | MutSetMessage _ =>
          admins_of (state w') g = heal o (admins_of (state w) g)
          ∧ targets_of (state w') g = targets_of (state w) g
      end.
Proof.
  intros Hacc g x o.
  destruct (accepted_outcome env i m w Hacc) as [_ Hrec].
  pose proof (outcome_frame env i m w) as Hframe. cbv zeta in Hframe.
  destruct (run_mutating_summary env i m w)
    as (w' & tr & Hrun & Htr & Hp & _ & _ & Hadm & Htgt & Hmsg & _).
  exists w', tr. do 3 (split; [done|]). fold g in Hadm, Htgt, Hmsg.
  rewrite Hadm, Htgt, Hmsg. unfold mutation_applied. fold g x o.
  rewrite Hadm, Htgt, Hmsg. split; [by destruct m as [[|] u|[|] u|text]|].
  by destruct m.
Qed.

(** X15.  Add a target, then remove it.  After an accepted
    [/target add] of a user, [is_target] answers true for that user;
    the same actor's [/target remove] of that user is then accepted, and
    after it targetIDs is exactly the list before the add and
    [is_target] answers false. *)
Theorem target_add_then_remove i u w :
  accepted env i (MutTarget Add u) w = true ->
  let g := guild_id i in
  let o := guild_owner_id i in
  let w1 := snd (target_command env i Add u w) in
  let w2 := snd (target_command env i Remove u w1) in
  targets_of (state w1) g = targets_of (state w) g ++ [user_id u]
  ∧ fst (is_target env g (user_id u) (Some o) w1) = Ok true
  ∧ accepted env i (MutTarget Remove u) w1 = true
  ∧ targets_of (state w2) g = targets_of (state w) g
  ∧ fst (is_target env g (user_id u) (Some o) w2) = Ok false.
Proof.
  intros Hacc g o w1 w2.
  destruct (accepted_run i (MutTarget Add u) w Hacc)
    as (w1' & tr1 & Hrun1 & _ & _ & Hmut1 & Hadm1 & _).
  simpl in Hrun1. assert (w1 = w1') as Hw1 by (subst w1; by rewrite Hrun1).
  unfold mutation_applied in Hmut1. fold g o in Hmut1, Hadm1. rewrite <- Hw1 in *.
  assert (Hnew : user_id u ∉ targets_of (state w) g).
  { revert Hacc. unfold accepted. destruct (authorized _ _ _); [|done].
    destruct (bot u); [done|]. simpl. fold g. intros H. apply py_in_false.
    by destruct (py_in _ _). }
  assert (Hacc2 : accepted env i (MutTarget Remove u) w1 = true).
  { revert Hacc. unfold accepted. fold g o. rewrite Hadm1, Hmut1.
    unfold authorized. destruct (Z.eqb_spec (user_id (user i)) o) as [?|Hne]; simpl.
    - intros _. rewrite py_in_app. simpl. by rewrite Z.eqb_refl, orb_true_r.
    - rewrite py_in_heal by done. destruct (py_in (user_id (user i)) _); [|done].
      intros _. rewrite py_in_app. simpl. by rewrite Z.eqb_refl, orb_true_r. }
  destruct (accepted_run i (MutTarget Remove u) w1 Hacc2)
    as (w2' & tr2 & Hrun2 & _ & _ & Hmut2 & _).
  simpl in Hrun2. assert (w2 = w2') as Hw2 by (subst w2; by rewrite Hrun2).
  unfold mutation_applied in Hmut2. fold g in Hmut2. rewrite <- Hw2 in *.
  rewrite Hmut1, remove_first_app_new in Hmut2 by done.
  split; [done|]. split; [|split; [done|split; [done|]]].
  - destruct (is_target_run env g (user_id u) (Some o) w1) as (n & tr & -> & _).
    simpl. rewrite targetIDs_healed. fold (targets_of (state w1) g). rewrite Hmut1.
    rewrite py_in_app. simpl. by rewrite Z.eqb_refl, orb_true_r.
  - destruct (is_target_run env g (user_id u) (Some o) w2) as (n & tr & -> & _).
    simpl. rewrite targetIDs_healed. fold (targets_of (state w2) g). rewrite Hmut2.
    f_equal. by apply py_in_false.
Qed.

(** X16.  Revocation.  After an accepted [/admin remove] of a user
    from an admin list without duplicates, that user is no longer
    authorized in the guild (under the same owner): [is_admin] answers
    false, and whatever mutating command the user issues next is
    answered with the permission text. *)
Theorem removal_revokes i u w :
  accepted env i (MutAdmin Remove u) w = true ->
  NoDup (admins_of (state w) (guild_id i)) ->
  let g := guild_id i in
  let o := guild_owner_id i in
  let v := user_id u in
  let w1 := snd (admin_command env i Remove u w) in
  (v ∉ admins_of (state w1) g)
  ∧ fst (is_admin env g v o w1) = Ok false
  ∧ ∀ bv m, ∃ w2 tr,
      run_mutating env (mkInteraction g (mkUser v bv) o) m w1 = (Ok tt, w2)
      ∧ trace w2 = trace w1 ++ tr ∧ responses tr = [NoPermission].
Proof.
  intros Hacc Hnd g o v w1.
  destruct (accepted_run i (MutAdmin Remove u) w Hacc)
    as (w1' & tr1 & Hrun1 & _ & _ & Hmut1 & _).
  simpl in Hrun1. assert (w1 = w1') as Hw1 by (subst w1; by rewrite Hrun1).
  unfold mutation_applied in Hmut1. fold g o v in Hmut1. rewrite <- Hw1 in *.
  assert (Hvo : v ≠ o).
  { revert Hacc. unfold accepted. fold g o v. destruct (authorized _ _ _); [|done].
    by destruct (Z.eqb_spec v o). }
  assert (Hgone : v ∉ admins_of (state w1) g).
  { rewrite Hmut1. apply remove_first_NoDup. unfold after_auth.
    destruct (_ =? _); [done|by apply heal_NoDup]. }
  assert (Hauth : authorized v o (admins_of (state w1) g) = false).
  { unfold authorized. apply Z.eqb_neq in Hvo. rewrite Hvo. by apply py_in_false. }
  split; [done|]. split.
  - destruct (is_admin_run env g v o w1) as (n & tr & -> & _). simpl. by rewrite Hauth.
  - intros bv m. set (i' := mkInteraction g (mkUser v bv) o).
    assert (Hacc' : accepted env i' m w1 = false).
    { unfold accepted. cbn [guild_id user user_id guild_owner_id i']. by rewrite Hauth. }
    destruct (rejected_outcome env i' m w1 Hacc') as (r & Hver & _ & _ & _ & Hperm & _).
    destruct (run_mutating_summary env i' m w1) as (w2 & tr & Hrun & Htr & _ & Hrep & _).
    rewrite Hver in Hrep. simpl in Hrep. exists w2, tr. do 2 (split; [done|]).
    rewrite Hrep. f_equal. by apply Hperm.
Qed.

(** X17.  Set the message, then a target writes.  After a
    [/setmessage] by an authorized actor the guild's message is the text
    given; a later chat message in that guild whose author is a target
    and not the bot's own user is answered with exactly that text when
    the text is not empty, and not answered when it is empty. *)
Theorem setmessage_then_message i text msg gd w :
  authorized (user_id (user i)) (guild_owner_id i) (admins_of (state w) (guild_id i)) = true ->
  guild msg = Some gd -> id gd = guild_id i ->
  (user_id (author msg) =? client_user env) = false ->
  user_id (author msg) ∈ targets_of (state w) (guild_id i) ->
  let w1 := snd (setmessage_command env i text w) in
  let w2 := snd (on_message env msg w1) in
  message_of (state w1) (guild_id i) = text
  ∧ replies (trace w2)
    = replies (trace w) ++ (if String.eqb text "" then [] else [text]).
Proof.
  intros Hauth Hgd Hid Hself Htarget w1 w2.
  assert (Hacc : accepted env i (MutSetMessage text) w = true).
  { unfold accepted. by rewrite Hauth. }
  destruct (accepted_run i (MutSetMessage text) w Hacc)
    as (w1' & tr1 & Hrun1 & Htr1 & Hp1 & Hmut1 & _ & Htgt1).
  simpl in Hrun1. assert (w1 = w1') as Hw1 by (subst w1; by rewrite Hrun1).
  unfold mutation_applied in Hmut1. rewrite <- Hw1 in *.
  split; [done|].
  pose proof (on_message_run env msg w1) as H. rewrite Hself, Hgd in H.
  cbv zeta in H. destruct H as (n & tr & Hrun2 & _ & Hrep).
  subst w2. rewrite Hrun2. simpl.
  rewrite replies_app, Htr1, replies_app, Hp1, app_nil_r, Hrep.
  rewrite targetIDs_healed, message_healed, Hid.
  fold (targets_of (state w1) (guild_id i)). fold (message_of (state w1) (guild_id i)).
  rewrite Htgt1, Hmut1. apply py_in_spec in Htarget. rewrite Htarget. simpl.
  by destruct (String.eqb text "").
Qed.

End RoundTrips.

(** ** Targets, message and startup *)

Section MoreChangeFacts.

Variable env : Env.

(** X18.  Between two loads of the document, targets and message
    change only through their own commands.  When a command, a chat
    message or an accessor call changes a guild's targetIDs, it is a
    [/target] command in that guild that passed the permission check and
    its validation; when it changes the guild's message, it is a
    [/setmessage] in that guild by an authorized actor, and the message
    after is the text given.  [/admin], [/info], chat messages, accessor
    calls and rejected commands never touch either.  ([on_ready], which
    replaces the whole document by the file's, is not among these
    events.) *)
Theorem targets_and_message_change_only_by_command op w g :
  let w' := snd (run_op env op w) in
  (targets_of (state w') g ≠ targets_of (state w) g ->
   ∃ i a u, op = OpTarget i a u ∧ guild_id i = g
            ∧ accepted env i (MutTarget a u) w = true)
  ∧ (message_of (state w') g ≠ message_of (state w) g ->
     ∃ i text, op = OpSetMessage i text ∧ guild_id i = g
               ∧ authorized (user_id (user i)) (guild_owner_id i)
                            (admins_of (state w) g) = true
               ∧ message_of (state w') g = text).
Proof.
  intros w'. subst w'.
  assert (Hrec : ∀ rec, state (snd (run_op env op w)) !! pretty g = Some rec ->
            targets_of (state (snd (run_op env op w))) g = targetIDs rec
            ∧ message_of (state (snd (run_op env op w))) g = message rec).
  { intros rec H. unfold targets_of, message_of. by rewrite H. }
  assert (Hsame : state (snd (run_op env op w)) !! pretty g = state w !! pretty g ->
            targets_of (state (snd (run_op env op w))) g = targets_of (state w) g
            ∧ message_of (state (snd (run_op env op w))) g = message_of (state w) g).
  { intros H. unfold targets_of, message_of. by rewrite H. }
  pose proof (op_lookup env op w g) as Hlook.
  destruct (op_effect env op w) as [[g0 rec]|] eqn:E.
  2:{ destruct (Hsame Hlook) as [-> ->]. by split. }
  destruct (decide (g0 = g)) as [->|Hne].
  2:{ destruct (Hsame Hlook) as [-> ->]. by split. }
  destruct (Hrec rec Hlook) as [-> ->]. clear Hrec Hsame Hlook.
  assert (Hheal : ∀ o', rec = healed_record o' (state w !! pretty g) ->
            targetIDs rec = targets_of (state w) g ∧ message rec = message_of (state w) g).
  { intros o' ->. by rewrite targetIDs_healed, message_healed. }
  assert (Hrej : ∀ i m, guild_id i = g -> rec = out_record (outcome_of env i m w) ->
            accepted env i m w = false ->
            targetIDs rec = targets_of (state w) g ∧ message rec = message_of (state w) g).
  { intros i m Hg -> Hacc.
    destruct (rejected_outcome env i m w Hacc) as (r & _ & -> & _).
    rewrite Hg. by rewrite targetIDs_fetched, message_fetched. }
  destruct op as [i a u|i a u|i text|i|msg|g1 o1]; simpl in E.
  - injection E as Hg Hr. pose proof (outcome_frame env i (MutAdmin a u) w) as H.
    cbv zeta in H. rewrite Hr, Hg in H. destruct H as [-> ->]. by split.
  - injection E as Hg Hr. pose proof (outcome_frame env i (MutTarget a u) w) as H.
    cbv zeta in H. rewrite Hr, Hg in H. destruct H as [_ ->]. split; [|done].
    intros Hchg. exists i, a, u. do 2 (split; [done|]).
    destruct (accepted env i (MutTarget a u) w) eqn:Hacc; [done|].
    by destruct (Hrej i (MutTarget a u) Hg (eq_sym Hr) Hacc).
  - injection E as Hg Hr. pose proof (outcome_frame env i (MutSetMessage text) w) as H.
    cbv zeta in H. rewrite Hr, Hg in H. destruct H as [_ ->]. split; [done|].
    intros Hchg. exists i, text. do 2 (split; [done|]).
    destruct (accepted env i (MutSetMessage text) w) eqn:Hacc.
    + destruct (accepted_outcome env i (MutSetMessage text) w Hacc) as [_ Hm].
      cbv zeta in Hm. rewrite Hr in Hm. split; [|done].
      revert Hacc. unfold accepted. rewrite Hg. by rewrite andb_true_r.
    + by destruct (Hrej i (MutSetMessage text) Hg (eq_sym Hr) Hacc).
  - injection E as Hg Hr. subst g. destruct (Hheal _ (eq_sym Hr)) as [-> ->]. by split.
  - destruct (_ =? _); [done|]. destruct (guild msg) as [gd|]; [|done].
    injection E as Hg Hr. subst g. destruct (Hheal _ (eq_sym Hr)) as [-> ->]. by split.
  - injection E as Hg Hr. subst g1. destruct (Hheal _ (eq_sym Hr)) as [-> ->]. by split.
Qed.

(** X19.  Startup.  [on_ready] never fails, also when the sync of the
    commands raises; it replaces the in-memory document by what
    [load_state] returns, whatever was in memory, and leaves the
    confirmations and the trace alone.  After a start on a missing or
    unreadable file the document is empty: then nobody but the owner is
    an admin of any guild, and no chat message is answered. *)
Theorem on_ready_spec f sync w :
  ∃ doc,
    load_state f = Ok doc
    ∧ on_ready f sync w
      = (Ok tt, mkWorld doc (pending_confirmations w) (clock_reads w)
                  (write_attempts w) (trace w))
    ∧ (file_exists f = false ∨ is_Some (open_read f) ∨ (∃ e, json_load f = Raise e) ->
       doc = ∅)
    ∧ (doc = ∅ ->
       let w' := snd (on_ready f sync w) in
       (∀ g x o, x ≠ o -> fst (is_admin env g x o w') = Ok false)
       ∧ (∀ msg, replies (trace (snd (on_message env msg w'))) = replies (trace w))).
Proof.
  assert (∃ doc, load_state f = Ok doc
            ∧ (file_exists f = false ∨ is_Some (open_read f) ∨ (∃ e, json_load f = Raise e) ->
               doc = ∅)) as (doc & Hload & Hempty).
  { unfold load_state, load_state_body. destruct (file_exists f).
    - destruct (open_read f) as [e|].
      + exists ∅. split; [by destruct (exc_class e)|done].
      + destruct (json_load f) as [data|e].
        * exists data. split; [done|]. intros [?|[[? ?]|[? ?]]]; done.
        * exists ∅. split; [by destruct (exc_class e)|done].
    - by exists ∅. }
  assert (Hrun : on_ready f sync w
                 = (Ok tt, mkWorld doc (pending_confirmations w) (clock_reads w)
                             (write_attempts w) (trace w))).
  { unfold on_ready, bind. rewrite Hload. unfold set_state, try_except. simpl.
    by destruct sync. }
  exists doc. do 3 (split; [done|]). intros ->. rewrite Hrun. simpl. split.
  - intros g x o Hne.
    match goal with |- context [is_admin env g x o ?w1] =>
      destruct (is_admin_run env g x o w1) as (n & tr & -> & _) end.
    simpl. unfold authorized, admins_of. simpl. rewrite lookup_empty.
    apply Z.eqb_neq in Hne. by rewrite Hne.
  - intros msg.
    match goal with |- context [on_message env msg ?w1] =>
      pose proof (on_message_run env msg w1) as H end.
    destruct (user_id (author msg) =? client_user env); [by rewrite H|].
    destruct (guild msg) as [gd|]; [|by rewrite H].
    cbv zeta in H. destruct H as (n & tr & -> & _ & Hrep). simpl in *.
    rewrite lookup_empty in Hrep. simpl in Hrep. by rewrite replies_app, Hrep, app_nil_r.
Qed.

End MoreChangeFacts.

Section AdminRoundTrip.

Variable env : Env.

(** X20.  Add an admin, then remove them.  After an accepted
    [/admin add] of a user, [is_admin] answers true for that user; the
    same actor's [/admin remove] of that user is then accepted at once
    (the actor is never the user just added, so no confirmation is
    involved), and after it adminIDs is exactly the list the add started
    from (the list before, with the owner appended when the permission
    check did so) and [is_admin] answers false for the user. *)
Theorem admin_add_then_remove i u w :
  accepted env i (MutAdmin Add u) w = true ->
  let g := guild_id i in
  let x := user_id (user i) in
  let o := guild_owner_id i in
  let l1 := after_auth x o (admins_of (state w) g) in
  let w1 := snd (admin_command env i Add u w) in
  let w2 := snd (admin_command env i Remove u w1) in
  admins_of (state w1) g = l1 ++ [user_id u]
  ∧ fst (is_admin env g (user_id u) o w1) = Ok true
  ∧ user_id u ≠ x
  ∧ accepted env i (MutAdmin Remove u) w1 = true
  ∧ admins_of (state w2) g = l1
  ∧ fst (is_admin env g (user_id u) o w2) = Ok false
  ∧ pending_confirmations w2 = pending_confirmations w.
Proof.
  intros Hacc g x o l1 w1 w2.
  destruct (accepted_run env i (MutAdmin Add u) w Hacc)
    as (w1' & tr1 & Hrun1 & _ & _ & Hmut1 & _).
  simpl in Hrun1. assert (w1 = w1') as Hw1 by (subst w1; by rewrite Hrun1).
  unfold mutation_applied in Hmut1. fold g x o l1 in Hmut1. rewrite <- Hw1 in *.
  assert (Hfacts : authorized x o (admins_of (state w) g) = true
                   ∧ py_in (user_id u) l1 = false ∧ user_id u ≠ o).
  { revert Hacc. unfold accepted. fold g x o l1. destruct (authorized _ _ _); [|done].
    destruct (bot u); [done|]. simpl. destruct (py_in _ _); [done|].
    by destruct (Z.eqb_spec (user_id u) o). }
  destruct Hfacts as (Hauth & Hnew & Hno).
  assert (Hnx : user_id u ≠ x).
  { intros Heq. unfold authorized in Hauth. apply orb_true_iff in Hauth as [Hxo|Hin].
    - apply Z.eqb_eq in Hxo. congruence.
    - rewrite <- Heq in Hin. subst l1.
      by rewrite (py_in_after_auth x o _ _ Hin) in Hnew. }
  assert (Hstable : after_auth x o (l1 ++ [user_id u]) = l1 ++ [user_id u]).
  { unfold after_auth. destruct (x =? o) eqn:Hxo; [done|]. unfold heal.
    assert (py_in o (l1 ++ [user_id u]) = true) as ->; [|done].
    rewrite py_in_app. apply orb_true_iff. left. apply py_in_spec. subst l1.
    unfold after_auth. rewrite Hxo. apply heal_owner. }
  assert (Hauth1 : authorized x o (admins_of (state w1) g) = true).
  { rewrite Hmut1. unfold authorized in *. apply orb_true_iff in Hauth as [->|Hin]; [done|].
    apply orb_true_iff. right. rewrite py_in_app. apply orb_true_iff. left.
    subst l1. by apply py_in_after_auth. }
  assert (Hacc2 : accepted env i (MutAdmin Remove u) w1 = true).
  { unfold accepted. fold g x o. rewrite Hauth1, Hmut1, Hstable.
    apply Z.eqb_neq in Hno, Hnx. rewrite Hno, Hnx, py_in_app. simpl.
    by rewrite Z.eqb_refl, orb_true_r. }
  destruct (accepted_run env i (MutAdmin Remove u) w1 Hacc2)
    as (w2' & tr2 & Hrun2 & _ & _ & Hmut2 & _).
  simpl in Hrun2. assert (w2 = w2') as Hw2 by (subst w2; by rewrite Hrun2).
  unfold mutation_applied in Hmut2. fold g x o in Hmut2. rewrite <- Hw2 in *.
  rewrite Hmut1, Hstable, remove_first_app_new in Hmut2 by by apply py_in_false.
  split; [done|]. split.
  { destruct (is_admin_run env g (user_id u) o w1) as (n & tr & -> & _).
    simpl. rewrite Hmut1. unfold authorized. rewrite py_in_app. simpl.
    by rewrite Z.eqb_refl, !orb_true_r. }
  do 3 (split; [done|]). split.
  { destruct (is_admin_run env g (user_id u) o w2) as (n & tr & -> & _).
    simpl. rewrite Hmut2. unfold authorized. apply Z.eqb_neq in Hno.
    by rewrite Hno, Hnew. }
  assert (Hns : ∀ a, is_self_removal (OpAdmin i a u) = false).
  { intros [|]; [done|]. simpl. by apply Z.eqb_neq. }
  destruct (run_op_effect env (OpAdmin i Add u) w) as (wa & tra & Ha & _ & _ & Hpa).
  destruct (run_op_effect env (OpAdmin i Remove u) w1) as (wb & trb & Hb & _ & _ & Hpb).
  simpl in Ha, Hb. subst w2. rewrite Hb. simpl.
  destruct (Hpb (Hns Remove)) as [-> _]. subst w1. rewrite Ha. simpl.
  by destruct (Hpa (Hns Add)) as [-> _].
Qed.

End AdminRoundTrip.

(** ** Concrete runs of the further properties *)

(** A stranger's [/setmessage] in a fresh guild. *)
Lemma rejected_commands_do_not_mutate_witness :
  let env := calm_env 0 100 in
  let i := mkInteraction 1 (mkUser 5 false) 9 in
  let m := MutSetMessage "x" in
  ∃ w' tr r,
    run_mutating env i m empty_world = (Ok tt, w') ∧ trace w' = trace empty_world ++ tr
    ∧ responses tr = [r] ∧ r ≠ SaveFailed ∧ r ≠ success m 5
    ∧ (authorized 5 9 (admins_of (state empty_world) 1) = false -> r = NoPermission)
    ∧ admins_of (state w') 1 = heal 9 (admins_of (state empty_world) 1)
    ∧ targets_of (state w') 1 = targets_of (state empty_world) 1
    ∧ message_of (state w') 1 = message_of (state empty_world) 1
    ∧ (r = ConfirmPrompt ∨ pending_confirmations w' = pending_confirmations empty_world).
Proof.
  intros env i m. apply (rejected_commands_do_not_mutate env i m empty_world).
  vm_compute. reflexivity.
Defined.

(** The owner removes admin 5. *)
Lemma admin_lost_only_by_accepted_removal_witness :
  let env := calm_env 0 100 in
  let w := mkWorld {[ "1" := mkGuildState [5] [] "" ]} ∅ 0 0 [] in
  let op := OpAdmin (mkInteraction 1 (mkUser 9 false) 9) Remove (mkUser 5 false) in
  ∃ i u,
    op = OpAdmin i Remove u ∧ guild_id i = 1 ∧ user_id u = 5
    ∧ accepted env i (MutAdmin Remove u) w = true
    ∧ authorized (user_id (user i)) (guild_owner_id i) (admins_of (state w) 1) = true
    ∧ 5 ≠ guild_owner_id i
    ∧ (5 = user_id (user i) -> confirmed_now env 1 5 w = true).
Proof.
  intros env w op. apply (admin_lost_only_by_accepted_removal env op w 1 5).
  - apply py_in_spec. vm_compute. reflexivity.
  - apply py_in_false. vm_compute. reflexivity.
Defined.

(** The owner adds admin 5. *)
Lemma admin_gained_only_by_accepted_add_or_owner_witness :
  let env := calm_env 0 100 in
  let op := OpAdmin (mkInteraction 1 (mkUser 9 false) 9) Add (mkUser 5 false) in
  (op_guild op = Some 1 ∧ op_owner op = Some 5)
  ∨ ∃ i u,
      op = OpAdmin i Add u ∧ guild_id i = 1 ∧ user_id u = 5
      ∧ accepted env i (MutAdmin Add u) empty_world = true
      ∧ authorized (user_id (user i)) (guild_owner_id i)
                   (admins_of (state empty_world) 1) = true
      ∧ bot u = false.
Proof.
  intros env op. apply (admin_gained_only_by_accepted_add_or_owner env op empty_world 1 5).
  - apply py_in_false. vm_compute. reflexivity.
  - apply py_in_spec. vm_compute. reflexivity.
Defined.

(** Admin 5 tries to remove the listed owner 9, then removes themself. *)
Lemma listed_owner_stays_listed_witness :
  let env := calm_env 0 100 in
  let w := mkWorld {[ "1" := mkGuildState [9; 5] [] "" ]} ∅ 0 0 [] in
  let by_5 := mkInteraction 1 (mkUser 5 false) 9 in
  let ops := [OpAdmin by_5 Remove (mkUser 9 false); OpAdmin by_5 Remove (mkUser 5 false);
              OpAdmin by_5 Remove (mkUser 5 false)] in
  9 ∈ admins_of (state (run_ops env ops w)) 1.
Proof.
  intros env w by_5 ops. apply (listed_owner_stays_listed env ops 1 9 w).
  - repeat constructor; intros _ o' H; simpl in H; by injection H as <-.
  - apply py_in_spec. vm_compute. reflexivity.
Defined.

(** The owner adds target 7 and removes it again. *)
Lemma target_add_then_remove_witness :
  let env := calm_env 0 100 in
  let i := mkInteraction 1 (mkUser 9 false) 9 in
  let u := mkUser 7 false in
  let w1 := snd (target_command env i Add u empty_world) in
  let w2 := snd (target_command env i Remove u w1) in
  targets_of (state w1) 1 = targets_of (state empty_world) 1 ++ [7]
  ∧ fst (is_target env 1 7 (Some 9) w1) = Ok true
  ∧ accepted env i (MutTarget Remove u) w1 = true
  ∧ targets_of (state w2) 1 = targets_of (state empty_world) 1
  ∧ fst (is_target env 1 7 (Some 9) w2) = Ok false.
Proof.
  intros env i u. apply (target_add_then_remove env i u empty_world).
  vm_compute. reflexivity.
Defined.

(** The owner removes admin 5, who then tries any command. *)
Lemma removal_revokes_witness :
  let env := calm_env 0 100 in
  let w := mkWorld {[ "1" := mkGuildState [5] [] "" ]} ∅ 0 0 [] in
  let i := mkInteraction 1 (mkUser 9 false) 9 in
  let w1 := snd (admin_command env i Remove (mkUser 5 false) w) in
  (5 ∉ admins_of (state w1) 1)
  ∧ fst (is_admin env 1 5 9 w1) = Ok false
  ∧ ∀ bv m, ∃ w2 tr,
      run_mutating env (mkInteraction 1 (mkUser 5 bv) 9) m w1 = (Ok tt, w2)
      ∧ trace w2 = trace w1 ++ tr ∧ responses tr = [NoPermission].
Proof.
  intros env w i. apply (removal_revokes env i (mkUser 5 false) w).
  - vm_compute. reflexivity.
  - assert (admins_of (state w) (guild_id i) = [5]) as -> by (vm_compute; reflexivity).
    apply NoDup_singleton.
Defined.

(** The owner sets "pong"; target 7 writes. *)
Lemma setmessage_then_message_witness :
  let env := calm_env 0 100 in
  let w := mkWorld {[ "1" := mkGuildState [] [7] "" ]} ∅ 0 0 [] in
  let i := mkInteraction 1 (mkUser 9 false) 9 in
  let msg := mkMessage (mkUser 7 false) (Some (mkGuild 1 9)) in
  let w1 := snd (setmessage_command env i "pong" w) in
  let w2 := snd (on_message env msg w1) in
  message_of (state w1) 1 = "pong"
  ∧ replies (trace w2) = replies (trace w) ++ (if String.eqb "pong" "" then [] else ["pong"]).
Proof.
  intros env w i msg.
  apply (setmessage_then_message env i "pong" msg (mkGuild 1 9) w).
  - vm_compute. reflexivity.
  - reflexivity.
  - reflexivity.
  - vm_compute. reflexivity.
  - apply py_in_spec. vm_compute. reflexivity.
Defined.

(** The owner adds admin 5 and removes them again. *)
Lemma admin_add_then_remove_witness :
  let env := calm_env 0 100 in
  let i := mkInteraction 1 (mkUser 9 false) 9 in
  let u := mkUser 5 false in
  let l1 := after_auth 9 9 (admins_of (state empty_world) 1) in
  let w1 := snd (admin_command env i Add u empty_world) in
  let w2 := snd (admin_command env i Remove u w1) in
  admins_of (state w1) 1 = l1 ++ [5]
  ∧ fst (is_admin env 1 5 9 w1) = Ok true
  ∧ 5 ≠ 9
  ∧ accepted env i (MutAdmin Remove u) w1 = true
  ∧ admins_of (state w2) 1 = l1
  ∧ fst (is_admin env 1 5 9 w2) = Ok false
  ∧ pending_confirmations w2 = pending_confirmations empty_world.
Proof.
  intros env i u. apply (admin_add_then_remove env i u empty_world).
  vm_compute. reflexivity.
Defined.

(** ** What the accessor writes *)

Section AccessorWrites.

Variable env : Env.

(** X21.  The accessor saves only when it heals.  [get_guild_state]
    always returns the guild's key.  When it creates a record it writes
    nothing to disk; when the record exists and the owner is absent from
    the call or already listed, the world is left exactly as it was;
    when it appends the owner it runs one [save_state] of the healed
    document (one to three write attempts, each of the document as
    healed) and returns normally whether or not that save succeeded. *)
Theorem accessor_saves_only_when_healing g o w :
  ∃ w' tr,
    get_guild_state env g o w = (Ok (pretty g), w') ∧ trace w' = trace w ++ tr
    ∧ match state w !! pretty g, o with
      | None, _ => tr = [] ∧ write_attempts w' = write_attempts w
      | Some gs, None => w' = w
      | Some gs, Some ow =>
          if py_in ow (adminIDs gs) then w' = w
          else
            state w' = <[pretty g := set_adminIDs (adminIDs gs ++ [ow]) gs]> (state w)
            ∧ (1 <= length (writes tr) <= 3)%nat
            ∧ write_attempts w' = (length (writes tr) + write_attempts w)%nat
            ∧ Forall (fun ev => match ev with
                                | EvWrite doc _ => doc = state w'
                                | EvSleep _ => True
                                | _ => False
                                end) tr
      end.
Proof.
  unfold get_guild_state, bind, get_state.
  remember (pretty g) as k eqn:Hk. clear Hk.
  destruct (state w !! k) as [gs|] eqn:E; simpl.
  2:{ eexists _, []. unfold set_state, ret. simpl. rewrite app_nil_r.
      split; [reflexivity|done]. }
  destruct o as [ow|]; simpl.
  2:{ exists w, []. unfold ret. rewrite app_nil_r. done. }
  destruct (py_in ow (adminIDs gs)) eqn:Ein; simpl.
  { exists w, []. unfold ret. rewrite app_nil_r. done. }
  erewrite mutate_run by exact E. unfold try_except, bind, get_state. simpl.
  match goal with |- context [save_state env ?doc ?w0] =>
    pose proof (save_state_unrolled env doc w0) as H; simpl in H;
    set (st1 := doc) in *; set (w1 := w0) in * end.
  destruct (write_fault env (write_attempts w)) as [e1|].
  2:{ rewrite H. eexists _, _. split; [reflexivity|]. simpl. split; [reflexivity|].
      repeat split; try lia; try done; by repeat constructor. }
  destruct (write_fault env (S (write_attempts w))) as [e2|].
  2:{ rewrite H. eexists _, _. split; [reflexivity|]. simpl. split; [reflexivity|].
      repeat split; try lia; try done; by repeat constructor. }
  destruct (write_fault env (S (S (write_attempts w)))) as [e3|].
  - rewrite H. simpl. eexists _, _. split; [reflexivity|]. simpl. split; [reflexivity|].
    repeat split; try lia; try done; by repeat constructor.
  - rewrite H. eexists _, _. split; [reflexivity|]. simpl. split; [reflexivity|].
    repeat split; try lia; try done; by repeat constructor.
Qed.

End AccessorWrites.

(** Two self-removals 5 seconds apart remove the admin; 61 seconds
    apart, the second one only prompts again. *)
Example self_demotion_timing :
  let env5 := mkEnv (fun n => inject_Z (5 * Z.of_nat n)) (fun _ => None) 100 in
  let env61 := mkEnv (fun n => inject_Z (61 * Z.of_nat n)) (fun _ => None) 100 in
  let w := mkWorld {[ "1" := mkGuildState [9; 5] [] "" ]} ∅ 0 0 [] in
  let i := mkInteraction 1 (mkUser 5 false) 9 in
  let twice env := snd (admin_command env i Remove (mkUser 5 false)
                          (snd (admin_command env i Remove (mkUser 5 false) w))) in
  responses (trace (twice env5)) = [ConfirmPrompt; SelfDemoted]
  ∧ admins_of (state (twice env5)) 1 = [9]
  ∧ responses (trace (twice env61)) = [ConfirmPrompt; ConfirmPrompt]
  ∧ admins_of (state (twice env61)) 1 = [9; 5].
Proof. vm_compute. done. Qed.

(** The owner's rejected target-add: targetIDs stays, and the command's
    own accessor call appends the owner to adminIDs. *)
Example owner_rejected_target_add :
  let env := calm_env 0 100 in
  let w := mkWorld {[ "1" := mkGuildState [5] [7] "" ]} ∅ 0 0 [] in
  let w' := snd (target_command env (mkInteraction 1 (mkUser 9 false) 9) Add
                   (mkUser 7 false) w) in
  responses (trace w') = [AlreadyTarget 7]
  ∧ targets_of (state w') 1 = [7]
  ∧ admins_of (state w') 1 = [5; 9].
Proof. vm_compute. done. Qed.
